(** * PDF Maker: the image-to-PDF workflow of the [App] component

    A shallow embedding of the React Native component of this repository,
    which exists in two variants: [src/App.js] and a second, restyled copy
    (the source file [part_000]).  Both declare the same three state
    cells ([selectedImages], [pdfName], [isGenerating]) and the same handlers
    ([requestPermissions], [pickImages], [removeImage], [generatePDF],
    [savePDF]); the second one adds [clearAll].

    - JavaScript strings are sequences of UTF-16 code units ([jsstring]).
    - The expo services (file system, printer, sharing, media library) are an
      oracle record [Services]: what each call resolves to or rejects with.
    - An [async] handler is a computation over a [World]: the state cells of
      the component and the chronological list of observable events (service
      calls, alerts, state setters).  [try]/[catch]/[finally] and early
      [return] are modelled by completion records.
    - [console.log] and [console.error] write to the developer console only
      and are left out. *)

From Stdlib Require Import String Ascii DecimalString NArith ZArith Bool Arith Lia List.
Import ListNotations.

Set Implicit Arguments.

(** ** JavaScript strings *)

Module Js.

Definition jsstring := list N.

(** An ASCII literal of the source, as code units. *)
Definition lit (s : string) : jsstring :=
  map N_of_ascii (list_ascii_of_string s).

(** The double quote of the attribute values in the markup. *)
Definition dquote : jsstring := [34%N].

(** Line feed, as in a multi-line template literal. *)
Definition LF : jsstring := [10%N].

(** ECMAScript WhiteSpace and LineTerminator code points (all of them lie
    in the basic plane, so each is one code unit). *)
Definition isWhiteSpace (c : N) : bool :=
  ((c =? 9) || (c =? 10) || (c =? 11) || (c =? 12) || (c =? 13) ||
   (c =? 32) || (c =? 160) || (c =? 5760) ||
   ((8192 <=? c) && (c <=? 8202)) ||
   (c =? 8232) || (c =? 8233) || (c =? 8239) || (c =? 8287) ||
   (c =? 12288) || (c =? 65279))%N.

Fixpoint trimStart (s : jsstring) : jsstring :=
  match s with
  | [] => []
  | c :: r => if isWhiteSpace c then trimStart r else s
  end.

Definition trimEnd (s : jsstring) : jsstring := rev (trimStart (rev s)).

(** [String.prototype.trim] *)
Definition trim (s : jsstring) : jsstring := trimEnd (trimStart s).

(** ToBoolean on a string: only the empty string is falsy. *)
Definition truthy (s : jsstring) : bool :=
  match s with
  | [] => false
  | _ :: _ => true
  end.

(** A non-negative integer inside a template literal. *)
Definition ofNat (n : nat) : jsstring :=
  lit (NilEmpty.string_of_uint (Nat.to_uint n)).

(** [Array.prototype.join] with the empty separator. *)
Definition join (l : list jsstring) : jsstring := concat l.

(** [Array.prototype.filter] with the two-argument callback. *)
Fixpoint filteri {A : Type} (p : A -> nat -> bool) (i : nat) (l : list A) : list A :=
  match l with
  | [] => []
  | x :: r => if p x i then x :: filteri p (S i) r else filteri p (S i) r
  end.

End Js.

Import Js.

(** ** Values exchanged with the platform *)

(** A thrown [Error]; the handlers read only its [message]. *)
Record JsError := { message : jsstring }.

(** How a promise settles. *)
Inductive Settled (A : Type) : Type :=
| Resolved (a : A)
| Rejected (e : JsError).
Arguments Rejected {A} e.

(** An entry of [result.assets]: the handlers read only [uri]. *)
Record Asset := { uri : jsstring; width : N; height : N }.

Inductive PermissionStatus := status_granted | status_denied | status_undetermined.

Record PermissionResponse := { status : PermissionStatus; granted : bool }.

Record PickerResult := { canceled : bool; assets : option (list Asset) }.

(** The asset object [MediaLibrary.createAssetAsync] resolves to. *)
Record MediaAsset := { id : jsstring; filename : jsstring }.

(** The options object of [Sharing.shareAsync]. *)
Record ShareOptions := { mimeType : jsstring; dialogTitle : jsstring; UTI : jsstring }.

(** [Platform.OS] *)
Inductive PlatformOS := ios | android | windows | macos | web.

Definition PlatformOS_eqb (a b : PlatformOS) : bool :=
  match a, b with
  | ios, ios | android, android | windows, windows | macos, macos | web, web => true
  | _, _ => false
  end.

(** The platform as the component sees it: two constants and, for each
    service call, what the returned promise settles to. *)
Record Services := {
  Platform_OS : PlatformOS;
  FileSystem_documentDirectory : jsstring;
  ImagePicker_requestMediaLibraryPermissionsAsync : Settled PermissionResponse;
  ImagePicker_launchImageLibraryAsync : Settled PickerResult;
  MediaLibrary_requestPermissionsAsync : Settled PermissionResponse;
  MediaLibrary_createAssetAsync : jsstring -> Settled MediaAsset;
  MediaLibrary_createAlbumAsync : jsstring -> MediaAsset -> bool -> Settled unit;
  FileSystem_readAsStringAsync : jsstring -> Settled jsstring;
  FileSystem_moveAsync : jsstring -> jsstring -> Settled unit;
  FileSystem_copyAsync : jsstring -> jsstring -> Settled unit;
  (** the [uri] field of the object the printer resolves to *)
  Print_printToFileAsync : jsstring -> Settled jsstring;
  Sharing_isAvailableAsync : Settled bool;
  Sharing_shareAsync : jsstring -> option ShareOptions -> Settled unit
}.

(** ** Component state and observable events *)

(** The three [useState] cells. *)
Record AppState := {
  selectedImages : list Asset;
  pdfName : jsstring;
  isGenerating : bool
}.

Definition initialState : AppState :=
  {| selectedImages := []; pdfName := []; isGenerating := false |}.

(** A call of one of the three setters. *)
Inductive StateUpdate :=
| setSelectedImages (l : list Asset)
| setPdfName (s : jsstring)
| setIsGenerating (b : bool).

Definition applyUpdate (u : StateUpdate) (s : AppState) : AppState :=
  match u with
  | setSelectedImages l =>
      {| selectedImages := l; pdfName := pdfName s; isGenerating := isGenerating s |}
  | setPdfName n =>
      {| selectedImages := selectedImages s; pdfName := n; isGenerating := isGenerating s |}
  | setIsGenerating b =>
      {| selectedImages := selectedImages s; pdfName := pdfName s; isGenerating := b |}
  end.

(** A button of an alert; [onPress] is the list of setters its callback
    calls (empty when the button has no callback). *)
Record AlertButton := {
  text : jsstring;
  style : option jsstring;
  onPress : list StateUpdate
}.

(** The service calls a handler can make, with their arguments. *)
Inductive Call :=
| requestMediaLibraryPermissionsAsync
| launchImageLibraryAsync
| requestPermissionsAsync
| createAssetAsync (localUri : jsstring)
| createAlbumAsync (albumName : jsstring) (asset : MediaAsset) (copyAsset : bool)
| readAsStringAsync (fileUri : jsstring)
| moveAsync (from to : jsstring)
| copyAsync (from to : jsstring)
| printToFileAsync (html : jsstring)
| isAvailableAsync
| shareAsync (url : jsstring) (options : option ShareOptions).

(** What a run of a handler does, in order.  [Alert] with no buttons is
    [Alert.alert(title, message)], which shows the default button. *)
Inductive Event :=
| Called (c : Call)
| Alert (title msg : jsstring) (buttons : list AlertButton)
| SetState (u : StateUpdate).

Record World := { state : AppState; trace : list Event }.

(** ** Asynchronous handlers *)

(** How a block of statements completes. *)
Inductive Completion (A : Type) : Type :=
| Normal (a : A)
| Returned
| Thrown (e : JsError).
Arguments Returned {A}.
Arguments Thrown {A} e.

Definition Async (A : Type) : Type := World -> Completion A * World.

Definition ret {A : Type} (a : A) : Async A := fun w => (Normal a, w).

Definition bind {A B : Type} (m : Async A) (k : A -> Async B) : Async B :=
  fun w =>
    match m w with
    | (Normal a, w') => k a w'
    | (Returned, w') => (Returned, w')
    | (Thrown e, w') => (Thrown e, w')
    end.

Declare Scope async_scope.
Delimit Scope async_scope with async.
Bind Scope async_scope with Async.
Notation "x <- m ;; k" := (bind m (fun x => k))
  (at level 61, m at next level, right associativity) : async_scope.
Notation "m ;; k" := (bind m (fun _ => k))
  (at level 61, right associativity) : async_scope.
Open Scope async_scope.

Definition emit (e : Event) : Async unit :=
  fun w => (Normal tt, {| state := state w; trace := trace w ++ [e] |}).

(** [return;] *)
Definition return_ {A : Type} : Async A := fun w => (Returned, w).

(** A setter: recorded, and applied to the cell. *)
Definition setState (u : StateUpdate) : Async unit :=
  fun w => (Normal tt, {| state := applyUpdate u (state w); trace := trace w ++ [SetState u] |}).

Definition Alert_alert (title msg : jsstring) (buttons : list AlertButton) : Async unit :=
  emit (Alert title msg buttons).

(** [await service(args)]: the call is recorded, then the promise settles. *)
Definition await {A : Type} (c : Call) (r : Settled A) : Async A :=
  fun w =>
    let w' := {| state := state w; trace := trace w ++ [Called c] |} in
    match r with
    | Resolved a => (Normal a, w')
    | Rejected e => (Thrown e, w')
    end.

(** [try { body } catch (e) { handler }] *)
Definition try_catch {A : Type} (body : Async A) (handler : JsError -> Async A) : Async A :=
  fun w =>
    match body w with
    | (Thrown e, w') => handler e w'
    | r => r
    end.

(** [try { body } finally { fin }]: [fin] runs however [body] completes, and
    an abrupt completion of [fin] replaces that of [body]. *)
Definition try_finally {A : Type} (body : Async A) (fin : Async unit) : Async A :=
  fun w =>
    match body w with
    | (c, w') =>
        match fin w' with
        | (Normal _, w'') => (c, w'')
        | (Returned, w'') => (Returned, w'')
        | (Thrown e, w'') => (Thrown e, w'')
        end
    end.

(** [await f()] of an async function of the component: its [return] ends
    the callee, not the caller. *)
Definition invoke (f : Async unit) : Async unit :=
  fun w =>
    match f w with
    | (Returned, w') => (Normal tt, w')
    | r => r
    end.

(** ** The [App] component *)

(** The two copies of the component in the repository. *)
Inductive SourceFile := App_js | part_000.

(** Non-ASCII characters of the second copy's alert texts. *)
Module Emoji.
Definition lock : jsstring := [55357; 56594]%N.            (* U+1F512 *)
Definition warning : jsstring := [9888; 65039]%N.          (* U+26A0 U+FE0F *)
Definition check_mark : jsstring := [9989]%N.              (* U+2705 *)
Definition cross_mark : jsstring := [10060]%N.             (* U+274C *)
Definition wastebasket : jsstring := [55357; 56785; 65039]%N. (* U+1F5D1 U+FE0F *)
Definition camera : jsstring := [55357; 56567]%N.          (* U+1F4F7 *)
Definition pencil : jsstring := [9999; 65039]%N.           (* U+270F U+FE0F *)
Definition arrow : jsstring := [8594]%N.                   (* U+2192 *)
End Emoji.

(** The [OK] button of the success alerts: its callback starts a fresh
    session. *)
Definition okResetButton : AlertButton :=
  {| text := lit "OK"; style := None;
     onPress := [setSelectedImages []; setPdfName []] |}.

(** One [<img>] element of [imagesHtml]. *)
Definition imgTag (base64 : jsstring) : jsstring :=
  lit "<img src=" ++ dquote ++ lit "data:image/jpeg;base64," ++ base64 ++ dquote
    ++ lit " style=" ++ dquote ++ lit "width:100%;display:block;" ++ dquote ++ lit "/>".

Definition htmlHead : jsstring :=
  LF ++ lit "<!DOCTYPE html>" ++
  LF ++ lit "<html>" ++
  LF ++ lit "<head>" ++
  LF ++ lit "  <style>" ++
  LF ++ lit "    * { margin: 0; padding: 0; box-sizing: border-box; }" ++
  LF ++ lit "    body { margin: 0; padding: 0; }" ++
  LF ++ lit "    img { width: 100%; display: block; }" ++
  LF ++ lit "  </style>" ++
  LF ++ lit "</head>" ++
  LF ++ lit "<body>".

Definition htmlTail : jsstring :=
  lit "</body>" ++ LF ++ lit "</html>".

(** The [html] template of [generatePDF]. *)
Definition htmlOf (images : list jsstring) : jsstring :=
  let imagesHtml := join (map imgTag images) in
  htmlHead ++ imagesHtml ++ htmlTail.

Section Component.

(** Which copy of the component, and the platform it runs on. *)
Variable file : SourceFile.
Variable env : Services.

(** The values of the state cells in the render whose handlers run. *)
Variable st : AppState.

Definition requestPermissions : Async bool :=
  match file with
  | App_js =>
      image <- await requestMediaLibraryPermissionsAsync
                 (ImagePicker_requestMediaLibraryPermissionsAsync env) ;;
      media <- await requestPermissionsAsync (MediaLibrary_requestPermissionsAsync env) ;;
      match status image, status media with
      | status_granted, status_granted => ret true
      | _, _ =>
          Alert_alert (lit "Permissions Required")
            (lit "Please grant permissions to access photos and save files.") [] ;;
          ret false
      end
  | part_000 =>
      image <- await requestMediaLibraryPermissionsAsync
                 (ImagePicker_requestMediaLibraryPermissionsAsync env) ;;
      match status image with
      | status_granted => ret true
      | _ =>
          Alert_alert (Emoji.lock ++ lit " Permissions Required")
            (lit "Please grant permissions to access photos.")
            [ {| text := lit "OK"; style := None; onPress := [] |} ] ;;
          ret false
      end
  end.

(** The part of [pickImages] after the permission check, shared by the
    two copies up to the success notice of the second. *)
Definition launchPicker : Async unit :=
  result <- await launchImageLibraryAsync (ImagePicker_launchImageLibraryAsync env) ;;
  match canceled result, assets result with
  | false, Some picked =>
      setState (setSelectedImages (selectedImages st ++ picked)) ;;
      match file with
      | App_js => ret tt
      | part_000 =>
          Alert_alert (Emoji.check_mark ++ lit " Success")
            (ofNat (length picked) ++ lit " images selected!") []
      end
  | _, _ => ret tt
  end.

Definition pickImages : Async unit :=
  match file with
  | App_js =>
      hasPermission <- requestPermissions ;;
      if negb hasPermission then return_
      else
        try_catch launchPicker
          (fun error =>
             Alert_alert (lit "Error") (lit "Failed to pick images: " ++ message error) [])
  | part_000 =>
      try_catch
        (hasPermission <- requestPermissions ;;
         if negb hasPermission then
           Alert_alert (Emoji.warning ++ lit " Permissions Needed")
             (lit "Please go to Settings " ++ Emoji.arrow ++ lit " Apps " ++ Emoji.arrow
                ++ lit " PDF-maker " ++ Emoji.arrow
                ++ lit " Permissions and enable Storage/Photos access.")
             [ {| text := lit "OK"; style := None; onPress := [] |} ] ;;
           return_
         else launchPicker)
        (fun error =>
           Alert_alert (Emoji.cross_mark ++ lit " Error")
             (lit "Failed to pick images: " ++ message error ++ LF ++ LF
                ++ lit "Try restarting the app or check permissions in Settings.") [])
  end.

(** [selectedImages.filter((_, i) => i !== index)] *)
Definition removeImage (index : Z) : Async unit :=
  setState (setSelectedImages
              (filteri (fun _ i => negb (Z.of_nat i =? index)%Z) 0 (selectedImages st))).

(** Only the second copy has it. *)
Definition clearAll : Async unit :=
  Alert_alert (Emoji.wastebasket ++ lit " Clear All") (lit "Remove all selected images?")
    [ {| text := lit "Cancel"; style := Some (lit "cancel"); onPress := [] |};
      {| text := lit "Clear"; style := Some (lit "destructive");
         onPress := [setSelectedImages []] |} ].

Definition fileName : jsstring := trim (pdfName st) ++ lit ".pdf".

Definition savePDF (uri : jsstring) : Async unit :=
  match file with
  | App_js =>
      try_catch
        (if PlatformOS_eqb (Platform_OS env) android then
           permission <- await requestPermissionsAsync (MediaLibrary_requestPermissionsAsync env) ;;
           if granted permission then
             asset <- await (createAssetAsync uri) (MediaLibrary_createAssetAsync env uri) ;;
             await (createAlbumAsync (lit "Download") asset false)
                   (MediaLibrary_createAlbumAsync env (lit "Download") asset false) ;;
             Alert_alert (lit "Success!") (lit "PDF saved to Downloads: " ++ fileName)
               [ okResetButton ]
           else ret tt
         else
           let newUri := FileSystem_documentDirectory env ++ fileName in
           await (moveAsync uri newUri) (FileSystem_moveAsync env uri newUri) ;;
           available <- await isAvailableAsync (Sharing_isAvailableAsync env) ;;
           if (available : bool) then
             await (shareAsync newUri None) (Sharing_shareAsync env newUri None) ;;
             setState (setSelectedImages []) ;;
             setState (setPdfName [])
           else ret tt)
        (fun error => Alert_alert (lit "Save Error") (message error) [])
  | part_000 =>
      try_catch
        (let newUri := FileSystem_documentDirectory env ++ fileName in
         await (copyAsync uri newUri) (FileSystem_copyAsync env uri newUri) ;;
         available <- await isAvailableAsync (Sharing_isAvailableAsync env) ;;
         if (available : bool) then
           let options :=
             Some {| mimeType := lit "application/pdf";
                     dialogTitle := lit "Save PDF";
                     UTI := lit "com.adobe.pdf" |} in
           await (shareAsync newUri options) (Sharing_shareAsync env newUri options) ;;
           Alert_alert (Emoji.check_mark ++ lit " Success!")
             (lit "PDF " ++ dquote ++ fileName ++ dquote
                ++ lit " created! You can now save it to your device.")
             [ okResetButton ]
         else
           Alert_alert (Emoji.check_mark ++ lit " PDF Created!")
             (lit "PDF saved as: " ++ fileName) [ okResetButton ])
        (fun error => Alert_alert (Emoji.cross_mark ++ lit " Save Error") (message error) [])
  end.

(** The title of the error alerts of [generatePDF]. *)
Definition errorTitle : jsstring :=
  match file with
  | App_js => lit "Error"
  | part_000 => Emoji.cross_mark ++ lit " Error"
  end.

(** The [for] loop of [generatePDF], from index [i] on: [rest] is what is
    left of [selectedImages], [images] the array filled so far. *)
Fixpoint readImages (i : nat) (rest : list Asset) (images : list jsstring)
  : Async (list jsstring) :=
  match rest with
  | [] => ret images
  | img :: rest' =>
      images' <-
        try_catch
          (base64 <- await (readAsStringAsync (uri img))
                       (FileSystem_readAsStringAsync env (uri img)) ;;
           if truthy base64 && (0 <? length base64) then ret (images ++ [base64])
           else ret images)
          (fun err =>
             Alert_alert errorTitle
               (lit "Could not read image " ++ ofNat (i + 1)
                  ++ lit ". It may be stored in iCloud. Please download it first.") [] ;;
             setState (setIsGenerating false) ;;
             return_) ;;
      readImages (S i) rest' images'
  end.

Definition generatePDF : Async unit :=
  if length (selectedImages st) =? 0 then
    Alert_alert
      (match file with
       | App_js => lit "No Images"
       | part_000 => Emoji.camera ++ lit " No Images"
       end)
      (lit "Please select at least one image.") [] ;;
    return_
  else if negb (truthy (trim (pdfName st))) then
    Alert_alert
      (match file with
       | App_js => lit "PDF Name Required"
       | part_000 => Emoji.pencil ++ lit " PDF Name Required"
       end)
      (lit "Please enter a name for your PDF.") [] ;;
    return_
  else
    setState (setIsGenerating true) ;;
    try_finally
      (try_catch
         (images <- readImages 0 (selectedImages st) [] ;;
          if length images =? 0 then
            Alert_alert errorTitle (lit "No images could be processed.") [] ;;
            setState (setIsGenerating false) ;;
            return_
          else
            let html := htmlOf images in
            uri <- await (printToFileAsync html) (Print_printToFileAsync env html) ;;
            invoke (savePDF uri))
         (fun error =>
            Alert_alert errorTitle (lit "Failed to generate PDF: " ++ message error) []))
      (setState (setIsGenerating false)).

(** The [disabled] property of the Generate button. *)
Definition generateDisabled : bool :=
  (length (selectedImages st) =? 0) || negb (truthy (trim (pdfName st))) || isGenerating st.

(** A press on the Generate button: [onPress={generatePDF}] of a
    touchable that ignores presses while [disabled]. *)
Definition pressGenerate : Async unit :=
  if generateDisabled then ret tt else generatePDF.

(** A handler run from the rendered state, with nothing observed yet. *)
Definition run (handler : Async unit) : Completion unit * World :=
  invoke handler {| state := st; trace := [] |}.

End Component.

(** ** Observations on a run *)

(** The Byte Reader call for an image. *)
Definition readCall (img : Asset) : Event := Called (readAsStringAsync (uri img)).

(** The locations handed to the Byte Reader, in call order. *)
Definition readCalls (t : list Event) : list jsstring :=
  flat_map (fun e => match e with Called (readAsStringAsync u) => [u] | _ => [] end) t.

(** The markups handed to the Renderer, in call order. *)
Definition renderCalls (t : list Event) : list jsstring :=
  flat_map (fun e => match e with Called (printToFileAsync h) => [h] | _ => [] end) t.

(** The invocations of the Share Surface, in call order. *)
Definition shareCalls (t : list Event) : list (jsstring * option ShareOptions) :=
  flat_map (fun e => match e with Called (shareAsync u o) => [(u, o)] | _ => [] end) t.

(** The service calls of a run, in call order. *)
Definition calls (t : list Event) : list Call :=
  flat_map (fun e => match e with Called c => [c] | _ => [] end) t.

(** The notices shown to the user: title and message. *)
Definition alerts (t : list Event) : list (jsstring * jsstring) :=
  flat_map (fun e => match e with Alert title msg _ => [(title, msg)] | _ => [] end) t.

(** The state cells after a run, and what the run did. *)
Definition finalState (r : Completion unit * World) : AppState := state (snd r).
Definition observed (r : Completion unit * World) : list Event := trace (snd r).

(** A handler that never completes by a [throw]: its promise is never
    rejected. *)
Definition neverThrows {A : Type} (m : Async A) : Prop :=
  forall w e, fst (m w) <> Thrown e.

(** A handler whose every run only appends events to the trace, and the
    appended events satisfy [P]. *)
Definition adds (P : list Event -> Prop) {A : Type} (m : Async A) : Prop :=
  forall w, exists t, trace (snd (m w)) = trace w ++ t /\ P t.

(** Events that involve neither the Byte Reader nor the Renderer. *)
Definition offPipeline (t : list Event) : Prop :=
  readCalls t = [] /\ renderCalls t = [].

(** The value of [isGenerating] once the events of [t] have happened,
    starting from [g]. *)
Fixpoint flagAfter (g : bool) (t : list Event) : bool :=
  match t with
  | [] => g
  | SetState (setIsGenerating b) :: r => flagAfter b r
  | _ :: r => flagAfter g r
  end.

(** Each service call of [t] with the value of [isGenerating] at the moment
    it is made (and so during the whole time it is awaited), starting from
    [g]. *)
Fixpoint callsUnder (g : bool) (t : list Event) : list (Call * bool) :=
  match t with
  | [] => []
  | Called c :: r => (c, g) :: callsUnder g r
  | SetState (setIsGenerating b) :: r => callsUnder b r
  | _ :: r => callsUnder g r
  end.

(** Events that leave [isGenerating] alone. *)
Definition offFlag (t : list Event) : Prop :=
  forall g, flagAfter g t = g /\ Forall (fun cg => snd cg = g) (callsUnder g t).

(** A block that, entered with [isGenerating] set, makes every service call
    with it set and leaves it set unless it ends by [return]. *)
Definition holdsFlag {A : Type} (m : Async A) : Prop :=
  forall w, exists t,
    trace (snd (m w)) = trace w ++ t /\
    Forall (fun cg => snd cg = true) (callsUnder true t) /\
    (fst (m w) <> Returned -> flagAfter true t = true).

(** [pat] occurs at the start of [s]. *)
Fixpoint startsWith (pat s : jsstring) : bool :=
  match pat, s with
  | [], _ => true
  | _ :: _, [] => false
  | p :: pat', c :: s' => (p =? c)%N && startsWith pat' s'
  end.

(** The number of positions of [s] at which [pat] occurs. *)
Fixpoint occurrences (pat s : jsstring) : nat :=
  match s with
  | [] => 0
  | c :: r => (if startsWith pat (c :: r) then 1 else 0) + occurrences pat r
  end.

(** The number of [<img] elements opened in a markup. *)
Definition imgBlocks (html : jsstring) : nat := occurrences (lit "<img ") html.

(** The characters of a base64 encoding: letters, digits, [+], [/], [=]. *)
Definition isBase64 (c : N) : bool :=
  (((65 <=? c) && (c <=? 90)) || ((97 <=? c) && (c <=? 122)) ||
   ((48 <=? c) && (c <=? 57)) || (c =? 43) || (c =? 47) || (c =? 61))%N.

(** [pat] and [s] differ at a position both of them have. *)
Fixpoint mismatch (pat s : jsstring) : bool :=
  match pat, s with
  | p :: pat', c :: s' => negb (p =? c)%N || mismatch pat' s'
  | _, _ => false
  end.

(** No occurrence of [pat] can start inside [u], whatever follows [u]. *)
Fixpoint inert (pat u : jsstring) : bool :=
  match u with
  | [] => true
  | c :: u' => mismatch pat (c :: u') && inert pat u'
  end.

(** The Byte Reader resolves for this image. *)
Definition readable (env : Services) (img : Asset) : Prop :=
  exists base64, FileSystem_readAsStringAsync env (uri img) = Resolved base64.

(** What the Byte Reader resolves to for this image (empty if it rejects). *)
Definition contentOf (env : Services) (img : Asset) : jsstring :=
  match FileSystem_readAsStringAsync env (uri img) with
  | Resolved base64 => base64
  | Rejected _ => []
  end.

(** The notice of a failed read of the image at ordinal position [k]. *)
Definition readErrorMessage (k : nat) : jsstring :=
  lit "Could not read image " ++ ofNat k
    ++ lit ". It may be stored in iCloud. Please download it first.".

(** The state a render starts from once [isGenerating] has been cleared. *)
Definition idle (s : AppState) : AppState := applyUpdate (setIsGenerating false) s.

(** The options the share-only path passes to the Share Surface. *)
Definition shareOptionsOf (file : SourceFile) : option ShareOptions :=
  match file with
  | App_js => None
  | part_000 =>
      Some {| mimeType := lit "application/pdf";
              dialogTitle := lit "Save PDF";
              UTI := lit "com.adobe.pdf" |}
  end.

(** The relocation call of the share-only path. *)
Definition relocateCall (file : SourceFile) (from to : jsstring) : Call :=
  match file with
  | App_js => moveAsync from to
  | part_000 => copyAsync from to
  end.

(** What the relocation call settles to. *)
Definition relocateResult (file : SourceFile) (env : Services) (from to : jsstring)
  : Settled unit :=
  match file with
  | App_js => FileSystem_moveAsync env from to
  | part_000 => FileSystem_copyAsync env from to
  end.

(** ** The rest of the interface *)

Section Interface.

Variable file : SourceFile.
Variable env : Services.
Variable st : AppState.

(** A press on the Select Images button: [onPress={pickImages}] of a
    touchable with [disabled={isGenerating}]. *)
Definition pressSelectImages : Async unit :=
  if isGenerating st then ret tt else pickImages file env st.

End Interface.

(** The callback of an alert button: its setters, in order. *)
Fixpoint callSetters (us : list StateUpdate) : Async unit :=
  match us with
  | [] => ret tt
  | u :: r => setState u ;; callSetters r
  end.

(** A press on a button of an alert that is showing. *)
Definition pressAlertButton (b : AlertButton) : Async unit := callSetters (onPress b).

(** The buttons of the alerts of a run, in the order the alerts were raised. *)
Definition alertButtons (t : list Event) : list (list AlertButton) :=
  flat_map (fun e => match e with Alert _ _ bs => [bs] | _ => [] end) t.

(** The state cells once the setters recorded in [t] have been applied. *)
Definition replay (t : list Event) (s : AppState) : AppState :=
  fold_left (fun s e => match e with SetState u => applyUpdate u s | _ => s end) t s.

(** A handler whose completion and events do not depend on the world it
    is started in, and whose only effect on the state cells is that of the
    setters it records. *)
Definition uniform {A : Type} (m : Async A) : Prop :=
  exists c t, forall w,
    m w = (c, {| state := replay t (state w); trace := trace w ++ t |}).

(** The first image of [sel] whose read rejects, with the images before it
    and the error. *)
Fixpoint firstRejection (env : Services) (sel : list Asset)
  : option (list Asset * Asset * JsError) :=
  match sel with
  | [] => None
  | img :: rest =>
      match FileSystem_readAsStringAsync env (uri img) with
      | Rejected e => Some ([], img, e)
      | Resolved _ =>
          match firstRejection env rest with
          | Some (pre, x, e) => Some (img :: pre, x, e)
          | None => None
          end
      end
  end.

(** The title of the save-error notice. *)
Definition saveErrorTitle (file : SourceFile) : jsstring :=
  match file with
  | App_js => lit "Save Error"
  | part_000 => Emoji.cross_mark ++ lit " Save Error"
  end.

(** The relocation calls of a run: source and target of each move or copy. *)
Definition relocations (t : list Event) : list (jsstring * jsstring) :=
  flat_map (fun e => match e with
                     | Called (moveAsync from to) => [(from, to)]
                     | Called (copyAsync from to) => [(from, to)]
                     | _ => []
                     end) t.

(** Events that set neither the Selection nor the name. *)
Definition keepsSession (t : list Event) : Prop :=
  forall s, selectedImages (replay t s) = selectedImages s /\
            pdfName (replay t s) = pdfName s.

(** ** Sample platforms and sessions *)

Module Sample.

Definition imageA : Asset := {| uri := lit "file:///gallery/A.jpg"; width := 640; height := 480 |}.
Definition imageB : Asset := {| uri := lit "file:///gallery/B.jpg"; width := 800; height := 600 |}.
Definition imageC : Asset := {| uri := lit "file:///gallery/C.jpg"; width := 32; height := 32 |}.
Definition imageE : Asset := {| uri := lit "file:///gallery/E.jpg"; width := 0; height := 0 |}.

Definition rendered : jsstring := lit "file:///cache/Print/3f2a.pdf".

Definition jsstring_eqb (a b : jsstring) : bool :=
  if list_eq_dec N.eq_dec a b then true else false.

(** A device on which image [C] is not materialised locally, image [E]
    is an empty file, every other file reads as four base64 characters,
    and every other service succeeds; [permitted] is the answer of the
    media library and [sharing] that of [Sharing.isAvailableAsync]. *)
Definition device (os : PlatformOS) (permitted sharing : bool) : Services :=
  {| Platform_OS := os;
     FileSystem_documentDirectory := lit "file:///data/documents/";
     ImagePicker_requestMediaLibraryPermissionsAsync :=
       Resolved {| status := status_granted; granted := true |};
     ImagePicker_launchImageLibraryAsync :=
       Resolved {| canceled := false; assets := Some [imageA] |};
     MediaLibrary_requestPermissionsAsync :=
       Resolved {| status := if permitted then status_granted else status_denied;
                   granted := permitted |};
     MediaLibrary_createAssetAsync :=
       fun localUri => Resolved {| id := lit "1042"; filename := lit "3f2a.pdf" |};
     MediaLibrary_createAlbumAsync := fun _ _ _ => Resolved tt;
     FileSystem_readAsStringAsync :=
       fun fileUri =>
         if jsstring_eqb fileUri (uri imageC)
         then Rejected {| message := lit "File is not readable" |}
         else if jsstring_eqb fileUri (uri imageE) then Resolved []
         else Resolved (lit "QUJD");
     FileSystem_moveAsync := fun _ _ => Resolved tt;
     FileSystem_copyAsync := fun _ _ => Resolved tt;
     Print_printToFileAsync := fun _ => Resolved rendered;
     Sharing_isAvailableAsync := Resolved sharing;
     Sharing_shareAsync := fun _ _ => Resolved tt |}.

Definition session (images : list Asset) (name : string) (busy : bool) : AppState :=
  {| selectedImages := images; pdfName := lit name; isGenerating := busy |}.

End Sample.

(** ** Sessions: invocations suspended at their awaits *)

(** The events of a handler that happen at once, up to and including the
    next service call it awaits, and what is left for when that call has
    settled ([None] when the handler ends without awaiting again). *)
Fixpoint toNextAwait (t : list Event) : list Event * option (list Event) :=
  match t with
  | [] => ([], None)
  | Called c :: r => ([Called c], Some r)
  | e :: r => let (now, later) := toNextAwait r in (e :: now, later)
  end.

(** The component between two events of the interface: the state cells as
    rendered, everything observed so far, and for each [generatePDF]
    invocation in flight (started and suspended at an [await]) the events
    it has still to perform. *)
Record Session := {
  cells : AppState;
  seen : list Event;
  inFlight : list (list Event)
}.

(** [useState([])], [useState('')], [useState(false)], nothing started. *)
Definition initialSession : Session :=
  {| cells := initialState; seen := []; inFlight := [] |}.

(** An invocation with the events [t] ahead runs until its next [await]:
    those events are observed, their setters act on the cells, and it
    stays in flight, beside the [others], unless it has ended. *)
Definition proceed (t : list Event) (s : Session) (others : list (list Event)) : Session :=
  let (now, later) := toNextAwait t in
  {| cells := replay now (cells s);
     seen := seen s ++ now;
     inFlight := match later with
                 | Some rest => rest :: others
                 | None => others
                 end |}.

(** What can happen to the component: a press on the Generate button; the
    service call awaited by the [k]-th invocation in flight settles; or
    any other handler sets the Selection and the name (typing in the name
    field, [removeImage], the setter of [pickImages], the buttons of the
    alerts: none of them calls [setIsGenerating]). *)
Inductive Happening :=
| PressGenerate
| Settles (k : nat)
| Edits (images : list Asset) (name : jsstring).

Section SessionSteps.

Variable file : SourceFile.
Variable env : Services.

(** A press runs the button's handler from the rendered cells; the
    invocation keeps the values of that render ([selectedImages] and
    [pdfName] are read from its closure) until it ends. *)
Definition happen (h : Happening) (s : Session) : Session :=
  match h with
  | PressGenerate =>
      proceed (observed (run (cells s) (pressGenerate file env (cells s)))) s (inFlight s)
  | Settles k =>
      match nth_error (inFlight s) k with
      | Some t => proceed t s (firstn k (inFlight s) ++ skipn (S k) (inFlight s))
      | None => s
      end
  | Edits images name =>
      {| cells := {| selectedImages := images; pdfName := name;
                     isGenerating := isGenerating (cells s) |};
         seen := seen s;
         inFlight := inFlight s |}
  end.

Definition happenings (hs : list Happening) : Session :=
  fold_left (fun s h => happen h s) hs initialSession.

End SessionSteps.

(** At most one invocation in flight, the flag set exactly while there is
    one, and that one holding the flag until its last events. *)
Definition guarded (s : Session) : Prop :=
  match inFlight s with
  | [] => isGenerating (cells s) = false
  | [t] =>
      isGenerating (cells s) = true /\
      Forall (fun cg => snd cg = true) (callsUnder true t) /\
      flagAfter true t = false
  | _ :: _ :: _ => False
  end.

(** A device on which chosen services reject: the picker's permission
    request, the picker, the printer, the relocation (move and copy) and
    the share sheet; everything else behaves as on [env]. *)
Record Faults := {
  permissionFails : bool;
  pickerFails : bool;
  printerFails : bool;
  relocationFails : bool;
  shareFails : bool
}.

Definition noFaults : Faults :=
  {| permissionFails := false; pickerFails := false; printerFails := false;
     relocationFails := false; shareFails := false |}.

Definition faulty (f : Faults) (env : Services) : Services :=
  {| Platform_OS := Platform_OS env;
     FileSystem_documentDirectory := FileSystem_documentDirectory env;
     ImagePicker_requestMediaLibraryPermissionsAsync :=
       if permissionFails f then Rejected {| message := lit "Permission service unavailable" |}
       else ImagePicker_requestMediaLibraryPermissionsAsync env;
     ImagePicker_launchImageLibraryAsync :=
       if pickerFails f then Rejected {| message := lit "Picker crashed" |}
       else ImagePicker_launchImageLibraryAsync env;
     MediaLibrary_requestPermissionsAsync := MediaLibrary_requestPermissionsAsync env;
     MediaLibrary_createAssetAsync := MediaLibrary_createAssetAsync env;
     MediaLibrary_createAlbumAsync := MediaLibrary_createAlbumAsync env;
     FileSystem_readAsStringAsync := FileSystem_readAsStringAsync env;
     FileSystem_moveAsync :=
       fun from to =>
         if relocationFails f then Rejected {| message := lit "No space left on device" |}
         else FileSystem_moveAsync env from to;
     FileSystem_copyAsync :=
       fun from to =>
         if relocationFails f then Rejected {| message := lit "No space left on device" |}
         else FileSystem_copyAsync env from to;
     Print_printToFileAsync :=
       fun html =>
         if printerFails f then Rejected {| message := lit "Printing failed" |}
         else Print_printToFileAsync env html;
     Sharing_isAvailableAsync := Sharing_isAvailableAsync env;
     Sharing_shareAsync :=
       fun url options =>
         if shareFails f then Rejected {| message := lit "Share sheet dismissed" |}
         else Sharing_shareAsync env url options |}.

(** * Properties *)

(** ** Strings *)

Lemma truthy_length (s : jsstring) : truthy s && (0 <? length s) = truthy s.
Proof. destruct s; reflexivity. Qed.

Lemma truthy_true_iff (s : jsstring) : truthy s = true <-> s <> [].
Proof. destruct s; simpl; split; congruence. Qed.

Lemma trimStart_suffix (s : jsstring) : exists ws, s = ws ++ trimStart s /\ forallb isWhiteSpace ws = true.
Proof.
  induction s as [|c r [ws [E F]]]; simpl.
  - exists []; split; reflexivity.
  - destruct (isWhiteSpace c) eqn:W.
    + exists (c :: ws); simpl; rewrite W, F; split; [congruence | reflexivity].
    + exists []; split; reflexivity.
Qed.

Lemma trimStart_all_white (s : jsstring) : forallb isWhiteSpace s = true -> trimStart s = [].
Proof.
  induction s as [|c r IH]; simpl; [reflexivity|].
  intros H; apply andb_true_iff in H as [W F]; rewrite W; auto.
Qed.

(** A name trims to the empty string exactly when it is made of white space. *)
Lemma trim_empty_iff (s : jsstring) : trim s = [] <-> forallb isWhiteSpace s = true.
Proof.
  unfold trim, trimEnd; split.
  - intros H.
    apply (f_equal (@rev N)) in H; rewrite rev_involutive in H; simpl in H.
    destruct (trimStart_suffix (rev (trimStart s))) as [ws [E F]].
    rewrite H, app_nil_r in E; rewrite <- E in F.
    destruct (trimStart_suffix s) as [ws0 [E0 F0]].
    rewrite E0 at 1. rewrite forallb_app, F0; simpl.
    apply forallb_forall; intros c Hc.
    rewrite forallb_forall in F; apply F, in_rev; rewrite rev_involutive; exact Hc.
  - intros H; rewrite (trimStart_all_white _ H); reflexivity.
Qed.

(** ** Traces *)

Lemma renderCalls_app (a b : list Event) : renderCalls (a ++ b) = renderCalls a ++ renderCalls b.
Proof. apply flat_map_app. Qed.

Lemma readCalls_app (a b : list Event) : readCalls (a ++ b) = readCalls a ++ readCalls b.
Proof. apply flat_map_app. Qed.

Lemma shareCalls_app (a b : list Event) : shareCalls (a ++ b) = shareCalls a ++ shareCalls b.
Proof. apply flat_map_app. Qed.

Lemma alerts_app (a b : list Event) : alerts (a ++ b) = alerts a ++ alerts b.
Proof. apply flat_map_app. Qed.

Lemma renderCalls_reads (l : list Asset) : renderCalls (map readCall l) = [].
Proof. induction l; simpl; auto. Qed.

Lemma alerts_reads (l : list Asset) : alerts (map readCall l) = [].
Proof. induction l; simpl; auto. Qed.

Lemma readCalls_reads (l : list Asset) : readCalls (map readCall l) = map uri l.
Proof. induction l; simpl; congruence. Qed.

Lemma world_eta (w : World) : {| state := state w; trace := trace w |} = w.
Proof. destruct w; reflexivity. Qed.

Lemma applyUpdate_same_selection (s : AppState) :
  applyUpdate (setSelectedImages (selectedImages s)) s = s.
Proof. destruct s; reflexivity. Qed.

(** ** The read loop *)

Section ReadLoop.

Variable file : SourceFile.
Variable env : Services.

(** When every read resolves, the loop keeps the non-empty contents, in
    order, and touches no state cell. *)
Lemma readImages_resolved (rest : list Asset) :
  Forall (readable env) rest ->
  forall i images w,
    readImages file env i rest images w =
      (Normal (images ++ filter truthy (map (contentOf env) rest)),
       {| state := state w; trace := trace w ++ map readCall rest |}).
Proof.
  induction 1 as [|img rest [b Hb] _ IH]; intros i images w; simpl.
  - rewrite !app_nil_r, world_eta; reflexivity.
  - unfold bind at 1, try_catch, bind at 1, await, contentOf.
    rewrite Hb, truthy_length.
    destruct (truthy b); unfold ret; rewrite IH; simpl;
      rewrite <- !app_assoc; reflexivity.
Qed.

(** The first read that rejects ends the loop by the early [return]: one
    notice naming the ordinal position, and [isGenerating] cleared. *)
Lemma readImages_rejected (pre : list Asset) (img : Asset) (post : list Asset) (e : JsError) :
  Forall (readable env) pre ->
  FileSystem_readAsStringAsync env (uri img) = Rejected e ->
  forall i images w,
    readImages file env i (pre ++ img :: post) images w =
      (Returned,
       {| state := idle (state w);
          trace := trace w ++ map readCall pre ++
                     [readCall img;
                      Alert (errorTitle file) (readErrorMessage (i + length pre + 1)) [];
                      SetState (setIsGenerating false)] |}).
Proof.
  intros Hpre Himg; induction Hpre as [|x pre [b Hb] _ IH]; intros i images w; simpl.
  - unfold bind at 1, try_catch, bind at 1, await.
    rewrite Himg; simpl.
    rewrite Nat.add_0_r, <- !app_assoc; reflexivity.
  - unfold bind at 1, try_catch, bind at 1, await.
    rewrite Hb, truthy_length.
    replace (i + S (length pre) + 1) with (S i + length pre + 1) by lia.
    destruct (truthy b); unfold ret; rewrite IH; cbn [state trace];
      rewrite <- !app_assoc; reflexivity.
Qed.

End ReadLoop.

(** ** Handlers only add to the trace, and catch what they throw *)

Section Adds.

Variable P : list Event -> Prop.
Hypothesis P_nil : P [].
Hypothesis P_app : forall a b, P a -> P b -> P (a ++ b).

Context {A B : Type}.

Lemma adds_ret (a : A) : adds P (ret a).
Proof. intros w; exists []; simpl; rewrite app_nil_r; auto. Qed.

Lemma adds_return : adds P (@return_ A).
Proof. intros w; exists []; simpl; rewrite app_nil_r; auto. Qed.

Lemma adds_await (c : Call) (r : Settled A) : P [Called c] -> adds P (await c r).
Proof. intros H w; exists [Called c]; unfold await; destruct r; auto. Qed.

Lemma adds_emit (e : Event) : P [e] -> adds P (emit e).
Proof. intros H w; exists [e]; auto. Qed.

Lemma adds_setState (u : StateUpdate) : P [SetState u] -> adds P (setState u).
Proof. intros H w; exists [SetState u]; auto. Qed.

Lemma adds_bind (m : Async A) (k : A -> Async B) :
  adds P m -> (forall a, adds P (k a)) -> adds P (bind m k).
Proof.
  intros Hm Hk w; unfold bind.
  destruct (Hm w) as [t [Ht Pt]]; destruct (m w) as [[a| |e] w']; simpl in Ht.
  - destruct (Hk a w') as [t' [Ht' Pt']]; exists (t ++ t').
    rewrite Ht', Ht, app_assoc; auto.
  - exists t; auto.
  - exists t; auto.
Qed.

Lemma adds_try_catch (body : Async A) (handler : JsError -> Async A) :
  adds P body -> (forall e, adds P (handler e)) -> adds P (try_catch body handler).
Proof.
  intros Hb Hh w; unfold try_catch.
  destruct (Hb w) as [t [Ht Pt]]; destruct (body w) as [[a| |e] w']; simpl in Ht.
  - exists t; auto.
  - exists t; auto.
  - destruct (Hh e w') as [t' [Ht' Pt']]; exists (t ++ t').
    rewrite Ht', Ht, app_assoc; auto.
Qed.

Lemma adds_try_finally (body : Async A) (fin : Async unit) :
  adds P body -> adds P fin -> adds P (try_finally body fin).
Proof.
  intros Hb Hf w; unfold try_finally.
  destruct (Hb w) as [t [Ht Pt]]; destruct (body w) as [c w']; simpl in Ht.
  destruct (Hf w') as [t' [Ht' Pt']]; exists (t ++ t').
  destruct (fin w') as [[[]| |e] w'']; simpl in *; rewrite Ht', Ht, app_assoc; auto.
Qed.

Lemma adds_invoke (f : Async unit) : adds P f -> adds P (invoke f).
Proof.
  intros Hf w; unfold invoke; destruct (Hf w) as [t Ht]; exists t.
  destruct (f w) as [[[]| |e] w']; exact Ht.
Qed.

End Adds.

Section NeverThrows.

Context {A B : Type}.

Lemma neverThrows_ret (a : A) : neverThrows (ret a).
Proof. intros w e; discriminate. Qed.

Lemma neverThrows_return : neverThrows (@return_ A).
Proof. intros w e; discriminate. Qed.

Lemma neverThrows_bind (m : Async A) (k : A -> Async B) :
  neverThrows m -> (forall a, neverThrows (k a)) -> neverThrows (bind m k).
Proof.
  intros Hm Hk w e; unfold bind.
  specialize (Hm w); destruct (m w) as [[a| |e'] w']; simpl in *.
  - apply Hk.
  - discriminate.
  - exfalso; exact (Hm e' eq_refl).
Qed.

(** A [catch] whose handler cannot throw stops every error of the body. *)
Lemma neverThrows_try_catch (body : Async A) (handler : JsError -> Async A) :
  (forall e, neverThrows (handler e)) -> neverThrows (try_catch body handler).
Proof.
  intros Hh w e; unfold try_catch.
  destruct (body w) as [[a| |e'] w']; simpl; try discriminate.
  apply Hh.
Qed.

Lemma neverThrows_try_finally (body : Async A) (fin : Async unit) :
  neverThrows body -> neverThrows fin -> neverThrows (try_finally body fin).
Proof.
  intros Hb Hf w e; unfold try_finally.
  specialize (Hb w); destruct (body w) as [c w']; simpl in Hb.
  specialize (Hf w'); destruct (fin w') as [[[]| |e'] w'']; simpl in *.
  - apply Hb.
  - discriminate.
  - exfalso; exact (Hf e' eq_refl).
Qed.

End NeverThrows.

Lemma adds_weaken (P Q : list Event -> Prop) {A : Type} (m : Async A) :
  (forall t, P t -> Q t) -> adds P m -> adds Q m.
Proof. intros PQ H w; destruct (H w) as [t [E Pt]]; exists t; auto. Qed.

Lemma neverThrows_emit (e : Event) : neverThrows (emit e).
Proof. intros w e'; discriminate. Qed.

Lemma neverThrows_setState (u : StateUpdate) : neverThrows (setState u).
Proof. intros w e'; discriminate. Qed.

Lemma neverThrows_invoke (f : Async unit) : neverThrows f -> neverThrows (invoke f).
Proof.
  intros Hf w e; unfold invoke; specialize (Hf w).
  destruct (f w) as [[[]| |e'] w']; simpl in *; try discriminate.
  exfalso; exact (Hf e' eq_refl).
Qed.

Lemma offPipeline_nil : offPipeline [].
Proof. split; reflexivity. Qed.

Lemma offPipeline_app (a b : list Event) : offPipeline a -> offPipeline b -> offPipeline (a ++ b).
Proof.
  intros [Ra Pa] [Rb Pb]; split.
  - rewrite readCalls_app, Ra, Rb; reflexivity.
  - rewrite renderCalls_app, Pa, Pb; reflexivity.
Qed.

Create HintDb async discriminated.
#[export] Hint Resolve neverThrows_ret neverThrows_return neverThrows_emit
  neverThrows_setState offPipeline_nil offPipeline_app : async.

(** Structural descent through a handler, for [adds] and [neverThrows]. *)
Ltac async_step :=
  match goal with
  | |- forall _, _ => intro
  | |- adds _ (if ?b then _ else _) => destruct b
  | |- neverThrows (if ?b then _ else _) => destruct b
  | |- adds _ (match ?x with _ => _ end) => destruct x
  | |- neverThrows (match ?x with _ => _ end) => destruct x
  | |- adds _ (let _ := _ in _) => cbv zeta
  | |- neverThrows (let _ := _ in _) => cbv zeta
  | |- adds _ (ret _) => apply adds_ret
  | |- adds _ return_ => apply adds_return
  | |- adds _ (await _ _) => apply adds_await
  | |- adds _ (emit _) => apply adds_emit
  | |- adds _ (setState _) => apply adds_setState
  | |- adds _ (bind _ _) => apply adds_bind
  | |- adds _ (try_catch _ _) => apply adds_try_catch
  | |- adds _ (try_finally _ _) => apply adds_try_finally
  | |- adds _ (invoke _) => apply adds_invoke
  | |- neverThrows (bind _ _) => apply neverThrows_bind
  | |- neverThrows (try_catch _ _) => apply neverThrows_try_catch
  | |- neverThrows (try_finally _ _) => apply neverThrows_try_finally
  | |- neverThrows (invoke _) => apply neverThrows_invoke
  | |- offPipeline [_] => split; reflexivity
  | |- _ => solve [auto with async]
  end.

Ltac async_auto := unfold Alert_alert; repeat async_step.

Section Handlers.

Variable file : SourceFile.
Variable env : Services.
Variable st : AppState.

(** Saving involves neither the Byte Reader nor the Renderer. *)
Lemma savePDF_offPipeline (uri : jsstring) : adds offPipeline (savePDF file env st uri).
Proof. unfold savePDF; async_auto. Qed.

Lemma neverThrows_savePDF (uri : jsstring) : neverThrows (savePDF file env st uri).
Proof. unfold savePDF; async_auto. Qed.

Lemma savePDF_extends (uri : jsstring) : adds (fun _ => True) (savePDF file env st uri).
Proof. apply adds_weaken with (P := offPipeline); [trivial | apply savePDF_offPipeline]. Qed.

Lemma readImages_extends (rest : list Asset) :
  forall i images, adds (fun _ => True) (readImages file env i rest images).
Proof. induction rest; intros; simpl; async_auto. Qed.

Lemma generatePDF_extends : adds (fun _ => True) (generatePDF file env st).
Proof.
  unfold generatePDF; async_auto; auto using readImages_extends, savePDF_extends.
Qed.

(** The outer [catch] of [generatePDF] leaves no error uncaught. *)
Lemma neverThrows_generatePDF : neverThrows (generatePDF file env st).
Proof. unfold generatePDF; async_auto. Qed.

End Handlers.

(** ** Selection Manager *)

Lemma filteri_remove {A : Type} (index : Z) (l : list A) :
  forall k,
    filteri (fun _ i => negb (Z.of_nat i =? index)%Z) k l =
      if ((Z.of_nat k <=? index) && (index <? Z.of_nat (k + length l)))%Z
      then firstn (Z.to_nat index - k) l ++ skipn (S (Z.to_nat index - k)) l
      else l.
Proof.
  induction l as [|x l IH]; intros k; cbn [filteri length].
  - rewrite firstn_nil, skipn_nil; destruct (_ && _); reflexivity.
  - rewrite IH; clear IH.
    destruct (Z.eqb_spec (Z.of_nat k) index) as [E|NE]; cbn [negb];
      destruct (Z.leb_spec (Z.of_nat (S k)) index);
      destruct (Z.ltb_spec index (Z.of_nat (S k + length l)));
      destruct (Z.leb_spec (Z.of_nat k) index);
      destruct (Z.ltb_spec index (Z.of_nat (k + S (length l))));
      cbn [andb]; try lia; try reflexivity.
    + replace (Z.to_nat index - k) with 0 by lia; reflexivity.
    + replace (Z.to_nat index - k) with (S (Z.to_nat index - S k)) by lia; reflexivity.
Qed.

Lemma removeImage_run (st : AppState) (index : Z) :
  let sel := selectedImages st in
  let i := Z.to_nat index in
  let sel' := if ((0 <=? index) && (index <? Z.of_nat (length sel)))%Z
              then firstn i sel ++ skipn (S i) sel else sel in
  run st (removeImage st index) =
    (Normal tt,
     {| state := applyUpdate (setSelectedImages sel') st;
        trace := [SetState (setSelectedImages sel')] |}).
Proof.
  intros sel i sel'; unfold run, invoke, removeImage, setState.
  rewrite filteri_remove, Nat.sub_0_r; reflexivity.
Qed.

(** C10. For a Selection of length [n] and any integer [index],
    [removeImage] raises nothing; with [index] outside [0, n-1] the state
    cells are exactly what they were; with [index] inside, the entry at that
    position is removed, the entries before it keep their positions and every
    later entry moves down by one, so the remaining entries keep their
    relative order. *)
Theorem C10_removeImage (st : AppState) (index : Z) :
  let sel := selectedImages st in
  let r := run st (removeImage st index) in
  fst r = Normal tt /\
  pdfName (finalState r) = pdfName st /\
  isGenerating (finalState r) = isGenerating st /\
  ((index < 0 \/ Z.of_nat (length sel) <= index)%Z -> finalState r = st) /\
  ((0 <= index < Z.of_nat (length sel))%Z ->
     let i := Z.to_nat index in
     selectedImages (finalState r) = firstn i sel ++ skipn (S i) sel /\
     length (selectedImages (finalState r)) = length sel - 1 /\
     forall j, nth_error (selectedImages (finalState r)) j =
                 if j <? i then nth_error sel j else nth_error sel (S j)).
Proof.
  intros sel r; subst r; rewrite removeImage_run; fold sel.
  unfold finalState; cbn [fst snd state applyUpdate selectedImages pdfName isGenerating].
  split; [reflexivity|]. split; [reflexivity|]. split; [reflexivity|]. split.
  - intros Out.
    replace ((0 <=? index) && (index <? Z.of_nat (length sel)))%Z with false.
    + destruct st; reflexivity.
    + symmetry; apply andb_false_iff.
      destruct Out; [left; apply Z.leb_gt | right; apply Z.ltb_ge]; lia.
  - intros In_; set (i := Z.to_nat index).
    replace ((0 <=? index) && (index <? Z.of_nat (length sel)))%Z with true
      by (symmetry; apply andb_true_iff; split; [apply Z.leb_le | apply Z.ltb_lt]; lia).
    split; [reflexivity|]. split.
    + rewrite length_app, length_firstn, length_skipn; lia.
    + intros j.
      rewrite nth_error_app, length_firstn, nth_error_firstn, nth_error_skipn.
      replace (Nat.min i (length sel)) with i by lia.
      destruct (Nat.ltb_spec j i); [reflexivity|].
      f_equal; lia.
Qed.

(** [removeAt(5)] on a two-element Selection, and [removeAt(0)] on it. *)
Lemma C10_removeImage_witness :
  let st := Sample.session [Sample.imageA; Sample.imageB] "Report" false in
  finalState (run st (removeImage st 5)) = st /\
  selectedImages (finalState (run st (removeImage st 0))) = [Sample.imageB].
Proof.
  intros st; split.
  - apply (C10_removeImage st 5); simpl; lia.
  - apply (C10_removeImage st 0); simpl; lia.
Defined.

(** ** Pipeline Runner: rejected invocations *)

Lemma length_eqb_0 {A : Type} (l : list A) : (length l =? 0) = false <-> l <> [].
Proof. destruct l; simpl; split; congruence. Qed.

(** C8. With the empty Selection, whatever the name and the platform,
    [generatePDF] shows the no-images notice and does nothing else: no Byte
    Reader call, no Renderer call, no other service call, and the state
    cells (Selection, name, GenerationState) are what they were. *)
Theorem C8_empty_selection_rejected (file : SourceFile) (env : Services) (st : AppState) :
  selectedImages st = [] ->
  let r := run st (generatePDF file env st) in
  (exists title, observed r = [Alert title (lit "Please select at least one image.") []]) /\
  readCalls (observed r) = [] /\
  renderCalls (observed r) = [] /\
  calls (observed r) = [] /\
  finalState r = st.
Proof.
  intros E r; subst r; unfold run, generatePDF; rewrite E; cbn [length Nat.eqb].
  unfold invoke, bind, Alert_alert, emit, return_, observed, finalState; cbn [fst snd state trace].
  repeat split; eexists; reflexivity.
Qed.

Lemma C8_empty_selection_rejected_witness :
  let st := Sample.session [] " Report " false in
  let r := run st (generatePDF part_000 (Sample.device android true true) st) in
  readCalls (observed r) = [] /\ renderCalls (observed r) = [] /\ finalState r = st.
Proof.
  intros st r.
  destruct (C8_empty_selection_rejected part_000 (Sample.device android true true) st eq_refl)
    as (_ & R & P & _ & F).
  exact (conj R (conj P F)).
Defined.

(** C9. With a non-empty Selection and a name that trims to the empty
    string, [generatePDF] shows the name-required notice and does nothing
    else: no Byte Reader call and no other service call is made, and no
    state cell changes. *)
Theorem C9_blank_name_rejected (file : SourceFile) (env : Services) (st : AppState) :
  selectedImages st <> [] ->
  trim (pdfName st) = [] ->
  let r := run st (generatePDF file env st) in
  (exists title, observed r = [Alert title (lit "Please enter a name for your PDF.") []]) /\
  readCalls (observed r) = [] /\
  calls (observed r) = [] /\
  finalState r = st.
Proof.
  intros NE T r; subst r; unfold run, generatePDF.
  apply length_eqb_0 in NE; rewrite NE, T; cbn [truthy negb].
  unfold invoke, bind, Alert_alert, emit, return_, observed, finalState; cbn [fst snd state trace].
  repeat split; eexists; reflexivity.
Qed.

Lemma C9_blank_name_rejected_witness :
  let st := Sample.session [Sample.imageA] "   " false in
  let r := run st (generatePDF App_js (Sample.device ios true true) st) in
  readCalls (observed r) = [] /\ calls (observed r) = [] /\ finalState r = st.
Proof.
  intros st r.
  assert (NE : selectedImages st <> []) by discriminate.
  destruct (C9_blank_name_rejected App_js (Sample.device ios true true) st NE eq_refl)
    as (_ & R & C & F).
  exact (conj R (conj C F)).
Defined.

(** ** Pipeline Runner: the re-entrancy guard *)

(** *** The flag is held while a generation is in flight *)

Lemma flagAfter_app (a b : list Event) (g : bool) :
  flagAfter g (a ++ b) = flagAfter (flagAfter g a) b.
Proof.
  revert g; induction a as [|e a IH]; intros g; [reflexivity|].
  destruct e as [c|? ? ?|[| |b']]; simpl; apply IH.
Qed.

Lemma callsUnder_app (a b : list Event) (g : bool) :
  callsUnder g (a ++ b) = callsUnder g a ++ callsUnder (flagAfter g a) b.
Proof.
  revert g; induction a as [|e a IH]; intros g; [reflexivity|].
  destruct e as [c|? ? ?|[| |b']]; simpl; rewrite IH; reflexivity.
Qed.

Lemma offFlag_nil : offFlag [].
Proof. intros g; split; [reflexivity | constructor]. Qed.

Lemma offFlag_app (a b : list Event) : offFlag a -> offFlag b -> offFlag (a ++ b).
Proof.
  intros Ha Hb g; destruct (Ha g) as [Fa Ca]; destruct (Hb g) as [Fb Cb].
  rewrite flagAfter_app, callsUnder_app, Fa; split; [exact Fb|].
  apply Forall_app; split; assumption.
Qed.

Section HoldsFlag.

Context {A B : Type}.

Lemma holdsFlag_ret (a : A) : holdsFlag (ret a).
Proof. intros w; exists []; simpl; rewrite app_nil_r; auto. Qed.

Lemma holdsFlag_return : holdsFlag (@return_ A).
Proof. intros w; exists []; simpl; rewrite app_nil_r; auto. Qed.

Lemma holdsFlag_await (c : Call) (r : Settled A) : holdsFlag (await c r).
Proof.
  intros w; exists [Called c]; unfold await; destruct r; simpl; auto.
Qed.

(** A setter followed at once by [return]. *)
Lemma holdsFlag_set_return (u : StateUpdate) :
  holdsFlag (setState u ;; @return_ A).
Proof.
  intros w; exists [SetState u]; unfold bind, setState, return_; simpl.
  split; [reflexivity|]. split; [destruct u; constructor | congruence].
Qed.

Lemma holdsFlag_bind (m : Async A) (k : A -> Async B) :
  holdsFlag m -> (forall a, holdsFlag (k a)) -> holdsFlag (bind m k).
Proof.
  intros Hm Hk w; unfold bind.
  destruct (Hm w) as (t & Ht & Ct & Ft); destruct (m w) as [[a| |e] w']; simpl in *.
  - destruct (Hk a w') as (t' & Ht' & Ct' & Ft'); exists (t ++ t').
    assert (F : flagAfter true t = true) by (apply Ft; discriminate).
    rewrite Ht', Ht, app_assoc, callsUnder_app, flagAfter_app, F.
    split; [reflexivity|]. split; [apply Forall_app; split; assumption | exact Ft'].
  - exists t; split; [assumption|]. split; [assumption | congruence].
  - exists t; split; [assumption|]. split; [assumption|].
    intros _; apply Ft; discriminate.
Qed.

Lemma holdsFlag_try_catch (body : Async A) (handler : JsError -> Async A) :
  holdsFlag body -> (forall e, holdsFlag (handler e)) -> holdsFlag (try_catch body handler).
Proof.
  intros Hb Hh w; unfold try_catch.
  destruct (Hb w) as (t & Ht & Ct & Ft); destruct (body w) as [[a| |e] w']; simpl in *.
  - exists t; split; [assumption|]; split; assumption.
  - exists t; split; [assumption|]; split; assumption.
  - destruct (Hh e w') as (t' & Ht' & Ct' & Ft'); exists (t ++ t').
    assert (F : flagAfter true t = true) by (apply Ft; discriminate).
    rewrite Ht', Ht, app_assoc, callsUnder_app, flagAfter_app, F.
    split; [reflexivity|]. split; [apply Forall_app; split; assumption | exact Ft'].
Qed.

End HoldsFlag.

Lemma holdsFlag_offFlag {A : Type} (m : Async A) : adds offFlag m -> holdsFlag m.
Proof.
  intros H w; destruct (H w) as (t & Ht & Off); destruct (Off true) as [F C].
  exists t; auto.
Qed.

Lemma holdsFlag_invoke (f : Async unit) : adds offFlag f -> holdsFlag (invoke f).
Proof. intros H; apply holdsFlag_offFlag, adds_invoke, H. Qed.

Lemma savePDF_offFlag (file : SourceFile) (env : Services) (st : AppState) (uri : jsstring) :
  adds offFlag (savePDF file env st uri).
Proof.
  unfold savePDF, Alert_alert.
  repeat first
    [ async_step
    | apply offFlag_nil
    | apply offFlag_app
    | match goal with
      | |- offFlag [_] => intros g; split; [reflexivity | repeat constructor]
      end ].
Qed.

Ltac flag_step :=
  match goal with
  | |- forall _, _ => intro
  | |- holdsFlag (if ?b then _ else _) => destruct b
  | |- holdsFlag (let _ := _ in _) => cbv zeta
  | |- holdsFlag (ret _) => apply holdsFlag_ret
  | |- holdsFlag return_ => apply holdsFlag_return
  | |- holdsFlag (await _ _) => apply holdsFlag_await
  | |- holdsFlag (bind (setState _) (fun _ => return_)) => apply holdsFlag_set_return
  | |- holdsFlag (emit (Alert _ _ _)) =>
      apply holdsFlag_offFlag, adds_emit; intros g; split; [reflexivity | constructor]
  | |- holdsFlag (invoke (savePDF _ _ _ _)) => apply holdsFlag_invoke, savePDF_offFlag
  | |- holdsFlag (bind _ _) => apply holdsFlag_bind
  | |- holdsFlag (try_catch _ _) => apply holdsFlag_try_catch
  end.

Lemma readImages_holdsFlag (file : SourceFile) (env : Services) (rest : list Asset) :
  forall i images, holdsFlag (readImages file env i rest images).
Proof.
  induction rest; intros; simpl; unfold Alert_alert; repeat flag_step; auto.
Qed.

(** A body that holds the flag, bracketed by the two setters. *)
Lemma bracketed_calls (body : Async unit) (st : AppState) :
  holdsFlag body ->
  Forall (fun cg => snd cg = true)
         (callsUnder (isGenerating st)
            (observed (run st (setState (setIsGenerating true) ;;
                               try_finally body (setState (setIsGenerating false)))))).
Proof.
  intros H; unfold run, invoke, bind, try_finally, observed.
  cbn [setState state trace app].
  set (w1 := {| state := applyUpdate (setIsGenerating true) st;
                trace := [SetState (setIsGenerating true)] |}).
  destruct (H w1) as (t & Ht & Ct & _).
  destruct (body w1) as [c w2]; cbn [fst snd] in *.
  assert (E : forall c' : Completion unit,
             trace (snd (let (c0, w') := (c', {| state := applyUpdate (setIsGenerating false) (state w2);
                                                trace := trace w2 ++ [SetState (setIsGenerating false)] |}) in
                         match c0 with
                         | Normal a => (Normal a, w')
                         | Returned => (Normal tt, w')
                         | Thrown e => (Thrown e, w')
                         end))
             = SetState (setIsGenerating true) :: t ++ [SetState (setIsGenerating false)]).
  { intros [[]| |e]; cbn [snd trace]; rewrite Ht; reflexivity. }
  rewrite E; cbn [callsUnder]; rewrite callsUnder_app, app_nil_r; exact Ct.
Qed.

(** From whatever state it is started, [generatePDF] makes every one of its
    service calls with [isGenerating] set. *)
Lemma generatePDF_calls_under_flag (file : SourceFile) (env : Services) (st : AppState) :
  Forall (fun cg => snd cg = true)
         (callsUnder (isGenerating st) (observed (run st (generatePDF file env st)))).
Proof.
  unfold generatePDF.
  destruct (length (selectedImages st) =? 0); [constructor|].
  destruct (negb (truthy (trim (pdfName st)))); [constructor|].
  apply bracketed_calls.
  unfold Alert_alert; repeat flag_step; apply readImages_holdsFlag.
Qed.

(** ** Pipeline Runner: the in-progress flag *)

(** A body bracketed by a setter before it and a setter in [finally]. *)
Lemma bracketed_run (u v : StateUpdate) (body : Async unit) (st : AppState) :
  adds (fun _ => True) body ->
  neverThrows body ->
  let r := run st (setState u ;; try_finally body (setState v)) in
  fst r = Normal tt /\
  (exists middle, observed r = SetState u :: middle ++ [SetState v]) /\
  exists s, finalState r = applyUpdate v s.
Proof.
  intros Hadds Hnt r; subst r.
  unfold run, invoke, bind, try_finally, observed, finalState.
  cbn [setState state trace app].
  set (w1 := {| state := applyUpdate u st; trace := [SetState u] |}).
  destruct (Hadds w1) as [t [Ht _]]; specialize (Hnt w1).
  destruct (body w1) as [c w2]; cbn [fst snd] in *.
  cbn [fst snd state trace]; rewrite Ht.
  split; [|split].
  - destruct c as [[]| |e]; try reflexivity. exfalso; exact (Hnt e eq_refl).
  - exists t. destruct c as [[]| |e]; reflexivity.
  - exists (state w2). destruct c as [[]| |e]; reflexivity.
Qed.

(** C7. Whenever the two preconditions pass, whatever the services do
    (every read, the rendering and every step of saving may resolve or
    reject), [generatePDF] first sets [isGenerating], ends by clearing it in
    its [finally], leaves it cleared, and its promise is fulfilled. *)
Theorem C7_generating_flag_bracketed (file : SourceFile) (env : Services) (st : AppState) :
  selectedImages st <> [] ->
  trim (pdfName st) <> [] ->
  let r := run st (generatePDF file env st) in
  fst r = Normal tt /\
  (exists middle,
     observed r = SetState (setIsGenerating true) :: middle ++ [SetState (setIsGenerating false)]) /\
  isGenerating (finalState r) = false.
Proof.
  intros NE T; unfold generatePDF.
  apply length_eqb_0 in NE; apply truthy_true_iff in T; rewrite NE, T; cbn [negb].
  match goal with
  | |- context [try_finally ?body _] =>
      destruct (@bracketed_run (setIsGenerating true) (setIsGenerating false) body st)
        as (C & M & s & F)
  end.
  - async_auto; auto using readImages_extends, savePDF_extends.
  - async_auto.
  - cbv zeta; rewrite F; auto.
Qed.

Lemma C7_generating_flag_bracketed_witness :
  let st := Sample.session [Sample.imageA; Sample.imageC] "Report" false in
  isGenerating (finalState (run st (generatePDF App_js (Sample.device android false true) st)))
    = false.
Proof.
  intros st.
  apply (C7_generating_flag_bracketed App_js (Sample.device android false true) st);
    discriminate.
Defined.

(** ** Pipeline Runner: reading and assembling *)

Section Generate.

Variable file : SourceFile.
Variable env : Services.
Variable st : AppState.

Hypothesis selection_nonempty : selectedImages st <> [].
Hypothesis name_nonblank : trim (pdfName st) <> [].

(** The first rejected read ends the run: the reads up to it, one notice,
    and the flag cleared (by the handler, then by [finally]). *)
Lemma generatePDF_read_rejected (pre : list Asset) (img : Asset) (post : list Asset)
      (e : JsError) :
  selectedImages st = pre ++ img :: post ->
  Forall (readable env) pre ->
  FileSystem_readAsStringAsync env (uri img) = Rejected e ->
  run st (generatePDF file env st) =
    (Normal tt,
     {| state := idle st;
        trace := SetState (setIsGenerating true) :: map readCall pre ++
                   [readCall img;
                    Alert (errorTitle file) (readErrorMessage (length pre + 1)) [];
                    SetState (setIsGenerating false);
                    SetState (setIsGenerating false)] |}).
Proof.
  intros Sel Hpre Himg; unfold generatePDF.
  apply length_eqb_0 in selection_nonempty as NE.
  apply truthy_true_iff in name_nonblank as T.
  rewrite NE, T, Sel; cbn [negb].
  unfold run, invoke, bind, try_finally, try_catch, setState.
  cbn [state trace fst snd].
  rewrite (@readImages_rejected file env pre img post e Hpre Himg).
  cbn [state trace fst snd app Nat.add idle applyUpdate selectedImages pdfName isGenerating].
  rewrite <- app_assoc; reflexivity.
Qed.

(** When every read resolves, the non-empty contents are kept in order;
    with none kept the run ends on the nothing-to-process notice, and
    otherwise the Renderer is called once, on the markup of the kept
    contents, and what follows involves neither Byte Reader nor Renderer. *)
Lemma generatePDF_reads_resolved :
  Forall (readable env) (selectedImages st) ->
  let kept := filter truthy (map (contentOf env) (selectedImages st)) in
  let r := run st (generatePDF file env st) in
  (kept = [] ->
   r = (Normal tt,
        {| state := idle st;
           trace := SetState (setIsGenerating true) :: map readCall (selectedImages st) ++
                      [Alert (errorTitle file) (lit "No images could be processed.") [];
                       SetState (setIsGenerating false);
                       SetState (setIsGenerating false)] |})) /\
  (kept <> [] ->
   exists tail,
     observed r = SetState (setIsGenerating true) :: map readCall (selectedImages st) ++
                    Called (printToFileAsync (htmlOf kept)) :: tail /\
     offPipeline tail).
Proof.
  intros Hall kept r; subst r; unfold generatePDF.
  apply length_eqb_0 in selection_nonempty as NE.
  apply truthy_true_iff in name_nonblank as T.
  rewrite NE, T; cbn [negb].
  assert (Run : forall k : list jsstring -> Async unit,
             let body := try_catch (images <- readImages file env 0 (selectedImages st) [] ;; k images)
                           (fun error => Alert_alert (errorTitle file)
                                           (lit "Failed to generate PDF: " ++ message error) []) in
             run st (setState (setIsGenerating true) ;;
                     try_finally body (setState (setIsGenerating false))) =
             run st (fun w =>
                       try_finally
                         (try_catch (k kept)
                            (fun error => Alert_alert (errorTitle file)
                               (lit "Failed to generate PDF: " ++ message error) []))
                         (setState (setIsGenerating false))
                         {| state := applyUpdate (setIsGenerating true) st;
                            trace := SetState (setIsGenerating true)
                                       :: map readCall (selectedImages st) |})).
  { intros k body; subst body.
    unfold run, invoke, bind, try_finally, try_catch, setState.
    cbn [state trace fst snd].
    rewrite (@readImages_resolved file env _ Hall).
    cbn [state trace app]; reflexivity. }
  rewrite Run; clear Run.
  split; intros K; unfold run; unfold invoke at 1;
    unfold try_finally, try_catch, setState, observed.
  - rewrite K; cbn [length Nat.eqb].
    unfold bind, Alert_alert, emit, setState, return_.
    cbn [state trace fst snd app idle applyUpdate selectedImages pdfName isGenerating].
    rewrite <- !app_assoc; reflexivity.
  - apply length_eqb_0 in K as L; rewrite L.
    unfold bind, await; cbv zeta.
    destruct (Print_printToFileAsync env (htmlOf kept)) as [rendered|e].
    + match goal with
      | |- context [invoke ?f ?w] =>
          destruct (@savePDF_offPipeline file env st rendered w) as [t [Ht Pt]];
          pose proof (@neverThrows_savePDF file env st rendered w) as NT;
          unfold invoke; destruct (f w) as [[[]| |e] w']
      end; cbn [fst snd state trace] in *;
        try (exfalso; exact (NT e eq_refl));
        (exists (t ++ [SetState (setIsGenerating false)]); split;
         [ rewrite Ht; cbn [app]; rewrite <- !app_assoc; reflexivity
         | apply offPipeline_app; [exact Pt | split; reflexivity] ]).
    + unfold Alert_alert, emit; cbn [fst snd state trace].
      eexists; split.
      * cbn [app]; rewrite <- !app_assoc; reflexivity.
      * split; reflexivity.
Qed.

End Generate.

(** Every image before position [i] is readable when each of them is. *)
Lemma readable_prefix (env : Services) (sel : list Asset) (i : nat) :
  (forall j x, j < i -> nth_error sel j = Some x -> readable env x) ->
  Forall (readable env) (firstn i sel).
Proof.
  intros H; apply Forall_forall; intros x Hx.
  apply In_nth_error in Hx as [j Hj].
  rewrite nth_error_firstn in Hj.
  destruct (Nat.ltb_spec j i); [eauto | discriminate].
Qed.

Lemma calls_app (a b : list Event) : calls (a ++ b) = calls a ++ calls b.
Proof. apply flat_map_app. Qed.

Lemma calls_reads (l : list Asset) :
  calls (map readCall l) = map (fun x => readAsStringAsync (uri x)) l.
Proof. induction l; simpl; congruence. Qed.

(** C2. If the Byte Reader call for the image at position [i] is made (the
    name is not blank and every earlier read resolved) and rejects, then
    [generatePDF] shows exactly one notice, which names ordinal position
    [i + 1]; the images after it are not read; the Renderer is never called;
    the Selection and the name are unchanged and the flag is cleared. *)
Theorem C2_read_failure_aborts (file : SourceFile) (env : Services) (st : AppState)
        (i : nat) (img : Asset) (e : JsError) :
  trim (pdfName st) <> [] ->
  nth_error (selectedImages st) i = Some img ->
  (forall j x, j < i -> nth_error (selectedImages st) j = Some x -> readable env x) ->
  FileSystem_readAsStringAsync env (uri img) = Rejected e ->
  let r := run st (generatePDF file env st) in
  alerts (observed r) = [(errorTitle file, readErrorMessage (i + 1))] /\
  readCalls (observed r) = map uri (firstn (i + 1) (selectedImages st)) /\
  renderCalls (observed r) = [] /\
  calls (observed r) = map (fun x => readAsStringAsync (uri x)) (firstn (i + 1) (selectedImages st)) /\
  selectedImages (finalState r) = selectedImages st /\
  pdfName (finalState r) = pdfName st /\
  isGenerating (finalState r) = false.
Proof.
  intros T Hi Hbefore Himg r; subst r.
  assert (NE : selectedImages st <> []) by (intros E; rewrite E in Hi; destruct i; discriminate).
  pose proof (firstn_skipn_middle _ _ Hi) as Split.
  assert (Len : length (firstn i (selectedImages st)) = i).
  { rewrite length_firstn; apply Nat.min_l, Nat.lt_le_incl, nth_error_Some; congruence. }
  rewrite (@generatePDF_read_rejected file env st NE T _ _ _ e (eq_sym Split)
             (@readable_prefix env _ i Hbefore) Himg).
  rewrite Len; unfold observed, finalState; cbn [fst snd state trace].
  assert (First : firstn (i + 1) (selectedImages st) = firstn i (selectedImages st) ++ [img]).
  { rewrite <- Split at 1.
    rewrite firstn_app, Len, firstn_firstn, Nat.min_r by lia.
    replace (i + 1 - i) with 1 by lia; reflexivity. }
  rewrite First, !map_app.
  repeat split.
  - change (alerts (SetState (setIsGenerating true) :: ?l)) with (alerts l).
    rewrite alerts_app, alerts_reads; reflexivity.
  - change (readCalls (SetState (setIsGenerating true) :: ?l)) with (readCalls l).
    rewrite readCalls_app, readCalls_reads; reflexivity.
  - change (renderCalls (SetState (setIsGenerating true) :: ?l)) with (renderCalls l).
    rewrite renderCalls_app, renderCalls_reads; reflexivity.
  - change (calls (SetState (setIsGenerating true) :: ?l)) with (calls l).
    rewrite calls_app, calls_reads; reflexivity.
Qed.

(** The scenario of the specification: Selection [A; C] with [C] not
    materialised locally, so that the read at position 1 rejects. *)
Lemma C2_read_failure_aborts_witness :
  let st := Sample.session [Sample.imageA; Sample.imageC] "Report" false in
  let r := run st (generatePDF part_000 (Sample.device ios true true) st) in
  alerts (observed r) = [(errorTitle part_000, readErrorMessage 2)] /\
  renderCalls (observed r) = [] /\
  selectedImages (finalState r) = selectedImages st.
Proof.
  intros st r.
  assert (T : trim (pdfName st) <> []) by discriminate.
  assert (Before : forall j x, j < 1 -> nth_error (selectedImages st) j = Some x ->
                               readable (Sample.device ios true true) x).
  { intros [|j] x Hj Hx; [|lia]. injection Hx as <-. eexists; reflexivity. }
  destruct (@C2_read_failure_aborts part_000 (Sample.device ios true true) st 1 Sample.imageC
              {| message := lit "File is not readable" |} T eq_refl Before eq_refl)
    as (A & _ & P & _ & S & _).
  exact (conj A (conj P S)).
Defined.

(** *** Counting the image blocks of a markup *)

Lemma mismatch_startsWith (pat u s : jsstring) :
  mismatch pat u = true -> startsWith pat (u ++ s) = false.
Proof.
  revert u; induction pat as [|p pat IH]; intros [|c u]; simpl; try discriminate.
  destruct (N.eqb p c); simpl; [apply IH | reflexivity].
Qed.

Lemma inert_occurrences (pat u s : jsstring) :
  inert pat u = true -> occurrences pat (u ++ s) = occurrences pat s.
Proof.
  induction u as [|c u IH]; [reflexivity|].
  cbn [inert]; intros H; apply andb_true_iff in H as [M I].
  change ((c :: u) ++ s) with (c :: (u ++ s)); cbn [occurrences].
  change (c :: (u ++ s)) with ((c :: u) ++ s).
  rewrite (@mismatch_startsWith pat (c :: u) s M), (IH I); reflexivity.
Qed.

Lemma base64_inert (b : jsstring) :
  forallb isBase64 b = true -> inert (lit "<img ") b = true.
Proof.
  induction b as [|c b IH]; [reflexivity|].
  cbn [forallb]; intros H; apply andb_true_iff in H as [C B].
  cbn [inert]; rewrite (IH B), andb_true_r.
  change (lit "<img ") with (60%N :: lit "img "); cbn [mismatch].
  destruct (N.eqb_spec 60 c) as [<-|]; [discriminate C | reflexivity].
Qed.

Lemma occurrences_hit (pat s : jsstring) (c : N) :
  startsWith pat (c :: s) = true -> occurrences pat (c :: s) = S (occurrences pat s).
Proof. cbn [occurrences]; intros ->; reflexivity. Qed.

(** One block opens exactly one [<img] element, if its content is base64. *)
Lemma imgTag_occurrences (b rest : jsstring) :
  forallb isBase64 b = true ->
  occurrences (lit "<img ") (imgTag b ++ rest) = S (occurrences (lit "<img ") rest).
Proof.
  intros B; unfold imgTag.
  pose (opening := lit "img src=" ++ dquote ++ lit "data:image/jpeg;base64,").
  pose (closing := dquote ++ lit " style=" ++ dquote ++ lit "width:100%;display:block;"
                     ++ dquote ++ lit "/>").
  change ((lit "<img src=" ++ dquote ++ lit "data:image/jpeg;base64," ++ b ++ dquote
             ++ lit " style=" ++ dquote ++ lit "width:100%;display:block;" ++ dquote
             ++ lit "/>") ++ rest)
    with (60%N :: (opening ++ (b ++ closing)) ++ rest).
  rewrite occurrences_hit by reflexivity.
  rewrite <- !app_assoc.
  rewrite (@inert_occurrences (lit "<img ") opening _ eq_refl).
  rewrite (@inert_occurrences (lit "<img ") b _ (base64_inert _ B)).
  rewrite (@inert_occurrences (lit "<img ") closing _ eq_refl).
  reflexivity.
Qed.

(** A markup over base64 contents opens one [<img] element per content. *)
Lemma htmlOf_imgBlocks (contents : list jsstring) :
  Forall (fun b => forallb isBase64 b = true) contents ->
  imgBlocks (htmlOf contents) = length contents.
Proof.
  intros H; unfold imgBlocks, htmlOf.
  rewrite (@inert_occurrences (lit "<img ") htmlHead _ eq_refl).
  induction H as [|b l Hb _ IH]; [reflexivity|].
  cbn [map join concat length]; rewrite <- app_assoc, (imgTag_occurrences _ _ Hb).
  f_equal; exact IH.
Qed.

(** C3. With a non-blank name and a Selection of [N >= 1] images whose
    reads all resolve to non-empty content, the Renderer is called exactly
    once, on the markup made of the fixed head, then exactly [N] [<img>]
    blocks, then the fixed tail; the block at position [i] is an [<img>]
    element whose [src] is the JPEG data URI made of the base64 content
    read for the image at position [i] of the Selection.
    When the contents are made of base64 characters, as the Byte Reader
    is asked to deliver them, that markup opens exactly [N] [<img]
    elements. *)
Theorem C3_one_block_per_image (file : SourceFile) (env : Services) (st : AppState) :
  selectedImages st <> [] ->
  trim (pdfName st) <> [] ->
  Forall (fun img => exists base64,
            FileSystem_readAsStringAsync env (uri img) = Resolved base64 /\ base64 <> [])
         (selectedImages st) ->
  let r := run st (generatePDF file env st) in
  let block := fun base64 : jsstring =>
    lit "<img src=" ++ [34%N] ++ lit "data:image/jpeg;base64," ++ base64 ++ [34%N]
      ++ lit " style=" ++ [34%N] ++ lit "width:100%;display:block;" ++ [34%N] ++ lit "/>" in
  let blocks := map (fun img => block (contentOf env img)) (selectedImages st) in
  renderCalls (observed r) = [htmlHead ++ join blocks ++ htmlTail] /\
  length blocks = length (selectedImages st) /\
  (forall i img,
     nth_error (selectedImages st) i = Some img ->
     nth_error blocks i = Some (block (contentOf env img)) /\
     FileSystem_readAsStringAsync env (uri img) = Resolved (contentOf env img)) /\
  readCalls (observed r) = map uri (selectedImages st) /\
  (Forall (fun img => forallb isBase64 (contentOf env img) = true) (selectedImages st) ->
   imgBlocks (htmlHead ++ join blocks ++ htmlTail) = length (selectedImages st)).
Proof.
  intros NE T Hall r block blocks.
  change block with imgTag in blocks.
  assert (Hread : Forall (readable env) (selectedImages st)).
  { eapply Forall_impl; [|exact Hall]. intros img (b & Hb & _); exists b; exact Hb. }
  assert (Kept : filter truthy (map (contentOf env) (selectedImages st))
                 = map (contentOf env) (selectedImages st)).
  { clear - Hall. induction Hall as [|img l (b & Hb & Hne) _ IH]; [reflexivity|].
    assert (C : contentOf env img = b) by (unfold contentOf; rewrite Hb; reflexivity).
    apply truthy_true_iff in Hne.
    cbn [map filter]; rewrite C, Hne, IH; reflexivity. }
  destruct (@generatePDF_reads_resolved file env st NE T Hread) as [_ Some_].
  rewrite Kept in Some_.
  destruct Some_ as (tail & Obs & Rtail & Ptail).
  { destruct (selectedImages st); [congruence | discriminate]. }
  fold r in Obs. rewrite Obs.
  split; [|split; [|split; [|split]]].
  - change (renderCalls (SetState (setIsGenerating true) :: ?l)) with (renderCalls l).
    rewrite renderCalls_app, renderCalls_reads.
    change (renderCalls (Called (printToFileAsync ?h) :: ?l)) with (h :: renderCalls l).
    rewrite Ptail; unfold htmlOf, blocks; rewrite map_map; reflexivity.
  - apply length_map.
  - intros i img Hi; split.
    + unfold blocks; rewrite nth_error_map, Hi; reflexivity.
    + apply nth_error_In in Hi.
      rewrite Forall_forall in Hall; destruct (Hall img Hi) as (b & Hb & _).
      unfold contentOf; rewrite Hb; reflexivity.
  - change (readCalls (SetState (setIsGenerating true) :: ?l)) with (readCalls l).
    rewrite readCalls_app, readCalls_reads.
    change (readCalls (Called (printToFileAsync ?h) :: ?l)) with (readCalls l).
    rewrite Rtail, app_nil_r; reflexivity.
  - intros B64.
    pose proof (@htmlOf_imgBlocks (map (contentOf env) (selectedImages st))) as Count.
    unfold htmlOf in Count; rewrite map_map, length_map in Count.
    apply Count, Forall_map, B64.
Qed.

(** The scenario of the specification: Selection [A; B], name [" Report "]. *)
Lemma C3_one_block_per_image_witness :
  let st := Sample.session [Sample.imageA; Sample.imageB] " Report " false in
  let r := run st (generatePDF App_js (Sample.device ios true true) st) in
  let block :=
    lit "<img src=" ++ [34%N] ++ lit "data:image/jpeg;base64,QUJD" ++ [34%N]
      ++ lit " style=" ++ [34%N] ++ lit "width:100%;display:block;" ++ [34%N] ++ lit "/>" in
  renderCalls (observed r) = [htmlHead ++ join [block; block] ++ htmlTail] /\
  imgBlocks (htmlHead ++ join [block; block] ++ htmlTail) = 2.
Proof.
  intros st r.
  assert (NE : selectedImages st <> []) by discriminate.
  assert (T : trim (pdfName st) <> []) by discriminate.
  assert (Hall : Forall (fun img => exists base64,
                           FileSystem_readAsStringAsync (Sample.device ios true true) (uri img)
                             = Resolved base64 /\ base64 <> [])
                        (selectedImages st)).
  { unfold st, Sample.session; cbn [selectedImages].
    constructor; [exists (lit "QUJD"); split; [reflexivity | discriminate]|].
    constructor; [exists (lit "QUJD"); split; [reflexivity | discriminate]|].
    constructor. }
  destruct (@C3_one_block_per_image App_js (Sample.device ios true true) st NE T Hall)
    as (Render & _ & _ & _ & Count).
  split; [exact Render|].
  apply Count; unfold st, Sample.session; cbn [selectedImages].
  constructor; [reflexivity|]. constructor; [reflexivity|]. constructor.
Defined.

(** C4. With a non-blank name and a non-empty Selection whose reads all
    resolve, an image whose content is empty raises nothing: every image is
    still read, in order; the empty contents are left out; and the Renderer
    is called on the markup of the non-empty ones, with as many blocks
    fewer as there are empty contents.  Only when every content is empty is
    the Renderer not called, and the run ends on the notice that no images
    could be processed. *)
Theorem C4_empty_content_omitted (file : SourceFile) (env : Services) (st : AppState) :
  selectedImages st <> [] ->
  trim (pdfName st) <> [] ->
  Forall (readable env) (selectedImages st) ->
  let r := run st (generatePDF file env st) in
  let contents := map (contentOf env) (selectedImages st) in
  let kept := filter truthy contents in
  readCalls (observed r) = map uri (selectedImages st) /\
  length kept + length (filter (fun c => negb (truthy c)) contents)
    = length (selectedImages st) /\
  (kept <> [] ->
   renderCalls (observed r) = [htmlOf kept] /\
   exists tail,
     observed r = SetState (setIsGenerating true) :: map readCall (selectedImages st) ++
                    Called (printToFileAsync (htmlOf kept)) :: tail) /\
  (kept = [] ->
   renderCalls (observed r) = [] /\
   alerts (observed r) = [(errorTitle file, lit "No images could be processed.")]) /\
  (kept = [] <-> Forall (fun img => contentOf env img = []) (selectedImages st)).
Proof.
  intros NE T Hall r contents kept.
  destruct (@generatePDF_reads_resolved file env st NE T Hall) as [None_ Some_].
  fold contents kept r in None_, Some_.
  split; [|split; [|split; [|split]]].
  - destruct kept as [|k kept'] eqn:K.
    + rewrite (None_ eq_refl); unfold observed; cbn [snd trace].
      change (readCalls (SetState (setIsGenerating true) :: ?l)) with (readCalls l).
      rewrite readCalls_app, readCalls_reads, app_nil_r; reflexivity.
    + destruct Some_ as (tail & Obs & Rtail & _); [discriminate|].
      rewrite Obs.
      change (readCalls (SetState (setIsGenerating true) :: ?l)) with (readCalls l).
      rewrite readCalls_app, readCalls_reads.
      change (readCalls (Called (printToFileAsync ?h) :: ?l)) with (readCalls l).
      rewrite Rtail, app_nil_r; reflexivity.
  - unfold kept; rewrite filter_length; unfold contents; apply length_map.
  - intros K; destruct (Some_ K) as (tail & Obs & _ & Ptail).
    split; [|exists tail; exact Obs].
    rewrite Obs.
    change (renderCalls (SetState (setIsGenerating true) :: ?l)) with (renderCalls l).
    rewrite renderCalls_app, renderCalls_reads.
    change (renderCalls (Called (printToFileAsync ?h) :: ?l)) with (h :: renderCalls l).
    rewrite Ptail; reflexivity.
  - intros K; rewrite (None_ K); unfold observed; cbn [snd trace].
    change (renderCalls (SetState (setIsGenerating true) :: ?l)) with (renderCalls l).
    change (alerts (SetState (setIsGenerating true) :: ?l)) with (alerts l).
    rewrite renderCalls_app, renderCalls_reads, alerts_app, alerts_reads; split; reflexivity.
  - unfold kept, contents; clear.
    induction (selectedImages st) as [|img l IH]; simpl.
    + split; [constructor | reflexivity].
    + destruct (contentOf env img) eqn:C; simpl.
      * rewrite IH; split; [intros H; constructor; assumption | intros H; inversion H; assumption].
      * split; [discriminate | intros H; inversion H; congruence].
Qed.

(** Selection [A; E; B] where [E] is an empty file: two blocks are rendered. *)
Lemma C4_empty_content_omitted_witness :
  let st := Sample.session [Sample.imageA; Sample.imageE; Sample.imageB] "Report" false in
  let r := run st (generatePDF part_000 (Sample.device android true true) st) in
  renderCalls (observed r) = [htmlOf [lit "QUJD"; lit "QUJD"]].
Proof.
  intros st r.
  assert (NE : selectedImages st <> []) by discriminate.
  assert (T : trim (pdfName st) <> []) by discriminate.
  assert (Hall : Forall (readable (Sample.device android true true)) (selectedImages st)).
  { unfold st, Sample.session; cbn [selectedImages].
    repeat (constructor; [eexists; reflexivity|]); constructor. }
  destruct (@C4_empty_content_omitted part_000 (Sample.device android true true) st NE T Hall)
    as (_ & _ & Some_ & _).
  apply Some_; discriminate.
Defined.

(** ** Output Placer *)

(** Where the claim of the specification fails on [savePDF]:
    - in [App.js] the Share Surface is called without options, so without a
      content-type hint;
    - with sharing unavailable the Share Surface is not called at all;
    - in [App.js] on android no call mentions the file name: two sessions
      that differ only in the name make the same service calls;
    - the second copy has no direct-save path: on android too it copies to
      the private document directory and shares. *)
Lemma C6_place_counterexample :
  let report := Sample.session [Sample.imageA] " Report " false in
  let other := Sample.session [Sample.imageA] "Other" false in
  let target := lit "file:///data/documents/Report.pdf" in
  shareCalls (observed (run report (savePDF App_js (Sample.device ios true true) report Sample.rendered)))
    = [(target, None)] /\
  shareCalls (observed (run report (savePDF App_js (Sample.device ios true false) report Sample.rendered)))
    = [] /\
  calls (observed (run report (savePDF App_js (Sample.device android true true) report Sample.rendered)))
    = [requestPermissionsAsync;
       createAssetAsync Sample.rendered;
       createAlbumAsync (lit "Download") {| id := lit "1042"; filename := lit "3f2a.pdf" |} false] /\
  calls (observed (run other (savePDF App_js (Sample.device android true true) other Sample.rendered)))
    = calls (observed (run report (savePDF App_js (Sample.device android true true) report Sample.rendered))) /\
  calls (observed (run report (savePDF part_000 (Sample.device android true true) report Sample.rendered)))
    = [copyAsync Sample.rendered target;
       isAvailableAsync;
       shareAsync target (shareOptionsOf part_000)].
Proof.
  vm_compute; repeat split; reflexivity.
Qed.

(** C6 (as the code has it). [savePDF] computes the file name as the
    trimmed name followed by [.pdf].  In the second copy on every platform,
    and in [App.js] on every platform but android, once the relocation to
    the document directory under that name resolves (a copy in the second
    copy, a move in [App.js]), the Share Surface is asked whether it is
    available and, if it is, is called exactly once on the relocated file,
    with the PDF content type in the second copy and with no options in
    [App.js]; if it is not available it is not called.  In [App.js] on
    android with the media permission granted, the rendered file is made a
    media asset, the asset is put into the [Download] album, and the
    success notice names the file name. *)
Theorem C6_place_as_coded (file : SourceFile) (env : Services) (st : AppState)
        (rendered : jsstring) :
  let name := trim (pdfName st) ++ lit ".pdf" in
  let newUri := FileSystem_documentDirectory env ++ name in
  let r := run st (savePDF file env st rendered) in
  fileName st = name /\
  option_map mimeType (shareOptionsOf part_000) = Some (lit "application/pdf") /\
  shareOptionsOf App_js = None /\
  (file = part_000 \/ Platform_OS env <> android ->
   relocateResult file env rendered newUri = Resolved tt ->
   forall available,
     Sharing_isAvailableAsync env = Resolved available ->
     calls (observed r) =
       relocateCall file rendered newUri :: isAvailableAsync ::
         (if available then [shareAsync newUri (shareOptionsOf file)] else []) /\
     shareCalls (observed r) =
       (if available then [(newUri, shareOptionsOf file)] else [])) /\
  (file = App_js ->
   Platform_OS env = android ->
   forall response asset,
     MediaLibrary_requestPermissionsAsync env = Resolved response ->
     granted response = true ->
     MediaLibrary_createAssetAsync env rendered = Resolved asset ->
     MediaLibrary_createAlbumAsync env (lit "Download") asset false = Resolved tt ->
     observed r =
       [Called requestPermissionsAsync;
        Called (createAssetAsync rendered);
        Called (createAlbumAsync (lit "Download") asset false);
        Alert (lit "Success!") (lit "PDF saved to Downloads: " ++ name) [okResetButton]]).
Proof.
  intros name newUri r.
  split; [reflexivity|]. split; [reflexivity|]. split; [reflexivity|]. split.
  - intros Path Reloc available Avail; subst r.
    assert (E : savePDF file env st rendered =
                try_catch
                  (await (relocateCall file rendered newUri)
                         (relocateResult file env rendered newUri) ;;
                   available <- await isAvailableAsync (Sharing_isAvailableAsync env) ;;
                   if (available : bool) then
                     await (shareAsync newUri (shareOptionsOf file))
                           (Sharing_shareAsync env newUri (shareOptionsOf file)) ;;
                     match file with
                     | App_js => setState (setSelectedImages []) ;; setState (setPdfName [])
                     | part_000 =>
                         Alert_alert (Emoji.check_mark ++ lit " Success!")
                           (lit "PDF " ++ dquote ++ fileName st ++ dquote
                              ++ lit " created! You can now save it to your device.")
                           [ okResetButton ]
                     end
                   else
                     match file with
                     | App_js => ret tt
                     | part_000 =>
                         Alert_alert (Emoji.check_mark ++ lit " PDF Created!")
                           (lit "PDF saved as: " ++ fileName st) [ okResetButton ]
                     end)
                  (fun error =>
                     Alert_alert
                       (match file with
                        | App_js => lit "Save Error"
                        | part_000 => Emoji.cross_mark ++ lit " Save Error"
                        end) (message error) [])).
    { unfold savePDF; destruct file; [|reflexivity].
      destruct Path as [Abs|NotAndroid]; [discriminate|].
      destruct (Platform_OS env); try reflexivity. congruence. }
    rewrite E; clear E.
    unfold run, invoke, try_catch, bind, await, observed.
    rewrite Reloc, Avail; cbn [fst snd state trace app].
    destruct available.
    + destruct (Sharing_shareAsync env newUri (shareOptionsOf file)) as [[]|err];
        destruct file; split; reflexivity.
    + destruct file; split; reflexivity.
  - intros -> Android response asset Perm Granted Asset Album; subst r.
    unfold run, invoke, savePDF, try_catch, bind, await, observed.
    rewrite Android; cbn [PlatformOS_eqb].
    rewrite Perm, Granted, Asset, Album; reflexivity.
Qed.

Lemma C6_place_as_coded_witness :
  let st := Sample.session [Sample.imageA; Sample.imageB] " Report " false in
  let target := lit "file:///data/documents/Report.pdf" in
  shareCalls (observed (run st (savePDF part_000 (Sample.device android true true) st Sample.rendered)))
    = [(target, shareOptionsOf part_000)] /\
  alerts (observed (run st (savePDF App_js (Sample.device android true true) st Sample.rendered)))
    = [(lit "Success!", lit "PDF saved to Downloads: Report.pdf")].
Proof.
  intros st target.
  destruct (C6_place_as_coded part_000 (Sample.device android true true) st Sample.rendered)
    as (_ & _ & _ & Share & _).
  destruct (C6_place_as_coded App_js (Sample.device android true true) st Sample.rendered)
    as (_ & _ & _ & _ & Direct).
  split.
  - exact (proj2 (Share (or_introl eq_refl) eq_refl true eq_refl)).
  - rewrite (Direct eq_refl eq_refl _ _ eq_refl eq_refl eq_refl eq_refl); reflexivity.
Defined.

(** ** Error notices *)

(** C5. In [App.js] on android, with one readable image and a name, when
    the media library answers the permission request of [savePDF] with a
    refusal, the document is rendered and then nothing is shown: no notice
    of any kind, and the session is left as it was.  The same holds in
    [App.js] off android when sharing is not available.  The second copy,
    on the same devices, ends on a notice; and [requestPermissions] of
    [App.js] itself shows a notice on the same refusal. *)
Theorem C5_refused_save_is_silent :
  let st := Sample.session [Sample.imageA] "Report" false in
  let refusing := Sample.device android false true in
  let unsharing := Sample.device ios true false in
  let r := run st (generatePDF App_js refusing st) in
  calls (observed r) =
    [readAsStringAsync (uri Sample.imageA);
     printToFileAsync (htmlOf [lit "QUJD"]);
     requestPermissionsAsync] /\
  alerts (observed r) = [] /\
  fst r = Normal tt /\
  finalState r = st /\
  alerts (observed (run st (generatePDF App_js unsharing st))) = [] /\
  length (alerts (observed (run st (generatePDF part_000 refusing st)))) = 1 /\
  length (alerts (observed (run st (generatePDF part_000 unsharing st)))) = 1 /\
  alerts (trace (snd (requestPermissions App_js refusing {| state := st; trace := [] |})))
    = [(lit "Permissions Required",
        lit "Please grant permissions to access photos and save files.")].
Proof.
  vm_compute; repeat split; reflexivity.
Qed.

(** * Further properties of the handlers *)

(** ** Runs do not depend on what was observed before *)

Lemma replay_app (a b : list Event) (s : AppState) :
  replay (a ++ b) s = replay b (replay a s).
Proof. apply fold_left_app. Qed.

Section Uniform.

Context {A B : Type}.

Lemma uniform_ret (a : A) : uniform (ret a).
Proof.
  exists (Normal a), []; intros w; unfold ret; rewrite app_nil_r; destruct w; reflexivity.
Qed.

Lemma uniform_return : uniform (@return_ A).
Proof.
  exists Returned, []; intros w; unfold return_; rewrite app_nil_r; destruct w; reflexivity.
Qed.

Lemma uniform_await (c : Call) (r : Settled A) : uniform (await c r).
Proof.
  destruct r as [a|e]; [exists (Normal a), [Called c] | exists (Thrown e), [Called c]];
    intros w; reflexivity.
Qed.

Lemma uniform_bind (m : Async A) (k : A -> Async B) :
  uniform m -> (forall a, uniform (k a)) -> uniform (bind m k).
Proof.
  intros (c & t & Hm) Hk; destruct c as [a| |e].
  - destruct (Hk a) as (c' & t' & Hk'); exists c', (t ++ t'); intros w.
    unfold bind; rewrite Hm, Hk'; cbn [state trace].
    rewrite replay_app, app_assoc; reflexivity.
  - exists Returned, t; intros w; unfold bind; rewrite Hm; reflexivity.
  - exists (Thrown e), t; intros w; unfold bind; rewrite Hm; reflexivity.
Qed.

Lemma uniform_try_catch (body : Async A) (handler : JsError -> Async A) :
  uniform body -> (forall e, uniform (handler e)) -> uniform (try_catch body handler).
Proof.
  intros (c & t & Hb) Hh; destruct c as [a| |e].
  - exists (Normal a), t; intros w; unfold try_catch; rewrite Hb; reflexivity.
  - exists Returned, t; intros w; unfold try_catch; rewrite Hb; reflexivity.
  - destruct (Hh e) as (c' & t' & Hh'); exists c', (t ++ t'); intros w.
    unfold try_catch; rewrite Hb, Hh'; cbn [state trace].
    rewrite replay_app, app_assoc; reflexivity.
Qed.

Lemma uniform_try_finally (body : Async A) (fin : Async unit) :
  uniform body -> uniform fin -> uniform (try_finally body fin).
Proof.
  intros (c & t & Hb) (c' & t' & Hf).
  exists (match c' with Normal _ => c | Returned => Returned | Thrown e => Thrown e end),
         (t ++ t'); intros w.
  unfold try_finally; rewrite Hb, Hf; cbn [state trace].
  rewrite replay_app, app_assoc; destruct c' as [[]| |e]; reflexivity.
Qed.

End Uniform.

Lemma uniform_emit (e : Event) : (forall u, e <> SetState u) -> uniform (emit e).
Proof.
  intros NotSet; exists (Normal tt), [e]; intros w; unfold emit, replay; cbn [fold_left].
  destruct e as [c|title msg bs|u]; [reflexivity | reflexivity | destruct (NotSet u eq_refl)].
Qed.

Lemma uniform_setState (u : StateUpdate) : uniform (setState u).
Proof. exists (Normal tt), [SetState u]; intros w; reflexivity. Qed.

Lemma uniform_invoke (f : Async unit) : uniform f -> uniform (invoke f).
Proof.
  intros (c & t & Hf).
  exists (match c with Returned => Normal tt | other => other end), t; intros w.
  unfold invoke; rewrite Hf; destruct c as [[]| |e]; reflexivity.
Qed.

Ltac uniform_step :=
  match goal with
  | |- forall _, _ => intro
  | |- uniform (if ?b then _ else _) => destruct b
  | |- uniform (match ?x with _ => _ end) => destruct x
  | |- uniform (let _ := _ in _) => cbv zeta
  | |- uniform (ret _) => apply uniform_ret
  | |- uniform return_ => apply uniform_return
  | |- uniform (await _ _) => apply uniform_await
  | |- uniform (emit (Alert _ _ _)) => apply uniform_emit; discriminate
  | |- uniform (setState _) => apply uniform_setState
  | |- uniform (bind _ _) => apply uniform_bind
  | |- uniform (try_catch _ _) => apply uniform_try_catch
  | |- uniform (try_finally _ _) => apply uniform_try_finally
  | |- uniform (invoke _) => apply uniform_invoke
  end.

Ltac uniform_auto := unfold Alert_alert; repeat uniform_step.

Lemma uniform_savePDF (file : SourceFile) (env : Services) (st : AppState)
      (rendered : jsstring) :
  uniform (savePDF file env st rendered).
Proof. unfold savePDF; uniform_auto. Qed.

Lemma uniform_readImages (file : SourceFile) (env : Services) (rest : list Asset) :
  forall i images, uniform (readImages file env i rest images).
Proof. induction rest; intros; simpl; uniform_auto; auto. Qed.

Lemma uniform_generatePDF (file : SourceFile) (env : Services) (st : AppState) :
  uniform (generatePDF file env st).
Proof.
  unfold generatePDF; uniform_auto;
    auto using uniform_readImages, uniform_savePDF.
Qed.

Lemma uniform_requestPermissions (file : SourceFile) (env : Services) :
  uniform (requestPermissions file env).
Proof. unfold requestPermissions; uniform_auto. Qed.

Lemma uniform_pickImages (file : SourceFile) (env : Services) (st : AppState) :
  uniform (pickImages file env st).
Proof.
  unfold pickImages, launchPicker; uniform_auto;
    auto using uniform_requestPermissions.
Qed.

(** What a uniform handler adds to any world is what it shows when run
    from the rendered state. *)
Lemma uniform_run (handler : Async unit) (st : AppState) (w : World) :
  uniform handler ->
  trace (snd (invoke handler w)) = trace w ++ observed (run st handler) /\
  fst (invoke handler w) = fst (run st handler) /\
  state (snd (invoke handler w)) = replay (observed (run st handler)) (state w).
Proof.
  intros U; apply uniform_invoke in U; destruct U as (c & t & H).
  unfold run, observed; rewrite !H; cbn [fst snd state trace app]; auto.
Qed.

(** ** Permission Gate *)

(** X1. When the permission requests resolve, [requestPermissions] answers
    [true] exactly when every status it asks for is [granted] (the picker's
    and the media library's in [App.js], the picker's alone in the second
    copy, which never asks the media library), shows one notice exactly
    when it answers [false], and changes no state cell. *)
Theorem requestPermissions_decides (file : SourceFile) (env : Services) (st : AppState)
        (image media : PermissionResponse) :
  ImagePicker_requestMediaLibraryPermissionsAsync env = Resolved image ->
  MediaLibrary_requestPermissionsAsync env = Resolved media ->
  let asked := match file with
               | App_js => [status image; status media]
               | part_000 => [status image]
               end in
  let r := requestPermissions file env {| state := st; trace := [] |} in
  exists ok : bool,
    fst r = Normal ok /\
    (ok = true <-> Forall (eq status_granted) asked) /\
    length (alerts (trace (snd r))) = (if ok then 0 else 1) /\
    calls (trace (snd r)) =
      match file with
      | App_js => [requestMediaLibraryPermissionsAsync; requestPermissionsAsync]
      | part_000 => [requestMediaLibraryPermissionsAsync]
      end /\
    state (snd r) = st.
Proof.
  intros Himage Hmedia asked r; subst asked r.
  unfold requestPermissions, bind, await, Alert_alert, emit, ret.
  destruct file; rewrite Himage, ?Hmedia; cbn [state trace app].
  - destruct (status image) eqn:I; destruct (status media) eqn:M;
      (exists true + exists false); cbn [fst snd state trace];
      (split; [reflexivity|]); (split; [|repeat split; reflexivity]);
      split; intros H; try discriminate; try (repeat constructor);
      inversion H as [|? ? H1 H2]; subst; try discriminate;
      inversion H2 as [|? ? H3 H4]; subst; discriminate.
  - destruct (status image) eqn:I;
      (exists true + exists false); cbn [fst snd state trace];
      (split; [reflexivity|]); (split; [|repeat split; reflexivity]);
      split; intros H; try discriminate; try (repeat constructor);
      inversion H as [|? ? H1 H2]; subst; discriminate.
Qed.

Lemma requestPermissions_decides_witness :
  let env := Sample.device android false true in
  let st := Sample.session [] "" false in
  exists ok : bool,
    fst (requestPermissions App_js env {| state := st; trace := [] |}) = Normal ok /\
    length (alerts (trace (snd (requestPermissions App_js env {| state := st; trace := [] |}))))
      = (if ok then 0 else 1).
Proof.
  intros env st.
  destruct (@requestPermissions_decides App_js env st _ _ eq_refl eq_refl)
    as (ok & F & _ & A & _).
  exists ok; split; assumption.
Defined.

(** ** Selection Manager: picking images *)

(** X2. When a permission the copy asks for is not granted, [pickImages]
    never opens the picker and changes no state cell; [App.js] shows one
    notice, the second copy two (the refusal, then the hint to the system
    settings). *)
Theorem pickImages_denied (file : SourceFile) (env : Services) (st : AppState)
        (image media : PermissionResponse) :
  ImagePicker_requestMediaLibraryPermissionsAsync env = Resolved image ->
  MediaLibrary_requestPermissionsAsync env = Resolved media ->
  (status image <> status_granted \/ (file = App_js /\ status media <> status_granted)) ->
  let r := run st (pickImages file env st) in
  fst r = Normal tt /\
  finalState r = st /\
  ~ In launchImageLibraryAsync (calls (observed r)) /\
  length (alerts (observed r)) = match file with App_js => 1 | part_000 => 2 end.
Proof.
  intros Himage Hmedia Denied r; subst r.
  unfold run, invoke, pickImages, try_catch, bind, requestPermissions, bind, await,
    Alert_alert, emit, ret, return_, observed, finalState.
  destruct file; rewrite Himage, ?Hmedia; cbn [state trace app].
  - destruct (status image) eqn:I; destruct (status media) eqn:M;
      try (exfalso; destruct Denied as [D|[_ D]]; congruence);
      cbn [fst snd state trace negb calls alerts flat_map app length];
      (repeat split; try reflexivity); intros [H|[H|[]]]; discriminate.
  - destruct (status image) eqn:I;
      try (exfalso; destruct Denied as [D|[D _]]; congruence);
      cbn [fst snd state trace negb calls alerts flat_map app length];
      (repeat split; try reflexivity); intros [H|[]]; discriminate.
Qed.

Lemma pickImages_denied_witness :
  let st := Sample.session [Sample.imageB] "Report" false in
  finalState (run st (pickImages App_js (Sample.device android false true) st)) = st.
Proof.
  intros st.
  apply (@pickImages_denied App_js (Sample.device android false true) st _ _ eq_refl eq_refl).
  right; split; [reflexivity | discriminate].
Defined.

(** X3. With the permissions granted, when the picker resolves with
    assets and was not cancelled the picked images are added after the
    current Selection, in the order picked and without de-duplication,
    and the name and the flag are untouched; when it was cancelled, or
    resolves without assets, no state cell changes and nothing is shown. *)
Theorem pickImages_appends (file : SourceFile) (env : Services) (st : AppState)
        (image media : PermissionResponse) (result : PickerResult) :
  ImagePicker_requestMediaLibraryPermissionsAsync env = Resolved image ->
  MediaLibrary_requestPermissionsAsync env = Resolved media ->
  status image = status_granted ->
  (file = App_js -> status media = status_granted) ->
  ImagePicker_launchImageLibraryAsync env = Resolved result ->
  let r := run st (pickImages file env st) in
  fst r = Normal tt /\
  pdfName (finalState r) = pdfName st /\
  isGenerating (finalState r) = isGenerating st /\
  (forall picked,
     canceled result = false -> assets result = Some picked ->
     selectedImages (finalState r) = selectedImages st ++ picked) /\
  (canceled result = true \/ assets result = None ->
   finalState r = st /\ alerts (observed r) = []).
Proof.
  intros Himage Hmedia Gi Gm Hpick r; subst r.
  unfold run, invoke, pickImages, try_catch, bind, requestPermissions, launchPicker, bind,
    await, Alert_alert, emit, ret, return_, setState, observed, finalState.
  destruct file; rewrite Himage, ?Hmedia, Gi, ?(Gm eq_refl); cbn [state trace app negb];
    rewrite Hpick; cbn [state trace app fst snd];
    destruct (canceled result) eqn:C; destruct (assets result) as [picked|] eqn:As;
    cbn [fst snd state trace applyUpdate selectedImages pdfName isGenerating];
    (split; [reflexivity|]); (split; [reflexivity|]); (split; [reflexivity|]);
    (split; [intros p; try discriminate; intros _ E; injection E as <-; reflexivity|]);
    intros [H|H]; try discriminate; split; reflexivity.
Qed.

Lemma pickImages_appends_witness :
  let st := Sample.session [Sample.imageA; Sample.imageB] "Report" false in
  selectedImages (finalState (run st (pickImages part_000 (Sample.device ios true true) st)))
    = [Sample.imageA; Sample.imageB; Sample.imageA].
Proof.
  intros st.
  destruct (@pickImages_appends part_000 (Sample.device ios true true) st _ _ _
              eq_refl eq_refl eq_refl (fun _ => eq_refl) eq_refl) as (_ & _ & _ & Add & _).
  exact (Add [Sample.imageA] eq_refl eq_refl).
Defined.

(** X4. With the permissions granted, when the picker rejects,
    [pickImages] catches the error and shows exactly one notice, which
    carries the error's message; no state cell changes. *)
Theorem pickImages_picker_rejects (file : SourceFile) (env : Services) (st : AppState)
        (image media : PermissionResponse) (e : JsError) :
  ImagePicker_requestMediaLibraryPermissionsAsync env = Resolved image ->
  MediaLibrary_requestPermissionsAsync env = Resolved media ->
  status image = status_granted ->
  (file = App_js -> status media = status_granted) ->
  ImagePicker_launchImageLibraryAsync env = Rejected e ->
  let r := run st (pickImages file env st) in
  fst r = Normal tt /\
  finalState r = st /\
  alerts (observed r) =
    [match file with
     | App_js => (lit "Error", lit "Failed to pick images: " ++ message e)
     | part_000 =>
         (Emoji.cross_mark ++ lit " Error",
          lit "Failed to pick images: " ++ message e ++ LF ++ LF
            ++ lit "Try restarting the app or check permissions in Settings.")
     end].
Proof.
  intros Himage Hmedia Gi Gm Hpick r; subst r.
  unfold run, invoke, pickImages, try_catch, bind, requestPermissions, launchPicker, bind,
    await, Alert_alert, emit, ret, return_, setState, observed, finalState.
  destruct file; rewrite Himage, ?Hmedia, Gi, ?(Gm eq_refl); cbn [state trace app negb];
    rewrite Hpick; repeat split; reflexivity.
Qed.

(** X5. The second copy's [pickImages] never rejects: whatever the
    services do, its promise is fulfilled.  In [App.js] the permission
    check is outside the [try]: when the picker's permission request
    rejects, [pickImages] rejects with that error and shows nothing. *)
Theorem pickImages_uncaught_in_App_js (env : Services) (st : AppState) :
  (forall e, fst (run st (pickImages part_000 env st)) <> Thrown e) /\
  (forall e,
     ImagePicker_requestMediaLibraryPermissionsAsync env = Rejected e ->
     run st (pickImages App_js env st) =
       (Thrown e, {| state := st; trace := [Called requestMediaLibraryPermissionsAsync] |})).
Proof.
  split.
  - intros e; unfold run.
    apply neverThrows_invoke; unfold pickImages; async_auto.
  - intros e H; unfold run, invoke, pickImages, bind, requestPermissions, bind, await.
    rewrite H; reflexivity.
Qed.

Lemma pickImages_picker_rejects_witness :
  let st := Sample.session [Sample.imageA] "Report" false in
  let env := faulty {| permissionFails := false; pickerFails := true; printerFails := false;
                       relocationFails := false; shareFails := false |}
                    (Sample.device ios true true) in
  alerts (observed (run st (pickImages App_js env st)))
    = [(lit "Error", lit "Failed to pick images: Picker crashed")].
Proof.
  intros st env.
  apply (@pickImages_picker_rejects App_js env st _ _ _ eq_refl eq_refl eq_refl
           (fun _ => eq_refl) eq_refl).
Defined.

Lemma pickImages_uncaught_in_App_js_witness :
  let st := Sample.session [Sample.imageA] "Report" false in
  let env := faulty {| permissionFails := true; pickerFails := false; printerFails := false;
                       relocationFails := false; shareFails := false |}
                    (Sample.device ios true true) in
  observed (run st (pickImages App_js env st)) = [Called requestMediaLibraryPermissionsAsync].
Proof.
  intros st env.
  destruct (pickImages_uncaught_in_App_js env st) as [_ Uncaught].
  rewrite (Uncaught _ eq_refl); reflexivity.
Defined.

(** ** Output Placer: failures and the fresh session *)

(** X6. On the share path (the second copy, and [App.js] off android) a
    rejected relocation ends [savePDF] on one save-error notice carrying
    the error's message: the availability of sharing is not even asked,
    nothing is shared, no state cell changes, and the promise is
    fulfilled.  A rejected share, after a successful relocation, ends the
    same way, and the session is not reset. *)
Theorem savePDF_failure_notice (file : SourceFile) (env : Services) (st : AppState)
        (rendered : jsstring) (e : JsError) :
  file = part_000 \/ Platform_OS env <> android ->
  let newUri := FileSystem_documentDirectory env ++ fileName st in
  let r := run st (savePDF file env st rendered) in
  (relocateResult file env rendered newUri = Rejected e ->
   r = (Normal tt,
        {| state := st;
           trace := [Called (relocateCall file rendered newUri);
                     Alert (saveErrorTitle file) (message e) []] |})) /\
  (relocateResult file env rendered newUri = Resolved tt ->
   Sharing_isAvailableAsync env = Resolved true ->
   Sharing_shareAsync env newUri (shareOptionsOf file) = Rejected e ->
   r = (Normal tt,
        {| state := st;
           trace := [Called (relocateCall file rendered newUri);
                     Called isAvailableAsync;
                     Called (shareAsync newUri (shareOptionsOf file));
                     Alert (saveErrorTitle file) (message e) []] |})).
Proof.
  intros Path newUri r; subst r newUri.
  assert (NotAndroid : file = App_js -> PlatformOS_eqb (Platform_OS env) android = false).
  { intros ->; destruct Path as [D|N]; [discriminate|].
    destruct (Platform_OS env); try reflexivity; congruence. }
  split.
  - intros Reloc; unfold run, invoke, savePDF, try_catch, bind, await, Alert_alert, emit.
    destruct file; [rewrite (NotAndroid eq_refl)|]; cbv zeta;
      cbn [relocateResult relocateCall] in *; rewrite Reloc; reflexivity.
  - intros Reloc Avail Share; unfold run, invoke, savePDF, try_catch, bind, await,
      Alert_alert, emit.
    destruct file; [rewrite (NotAndroid eq_refl)|]; cbv zeta;
      cbn [relocateResult relocateCall shareOptionsOf] in *;
      rewrite Reloc, Avail; cbn [state trace app]; rewrite Share; reflexivity.
Qed.

Lemma savePDF_failure_notice_witness :
  let st := Sample.session [Sample.imageA] " Report " false in
  let full := faulty {| permissionFails := false; pickerFails := false; printerFails := false;
                        relocationFails := true; shareFails := false |}
                     (Sample.device android true true) in
  let dismissed := faulty {| permissionFails := false; pickerFails := false;
                             printerFails := false; relocationFails := false;
                             shareFails := true |}
                          (Sample.device ios true true) in
  alerts (observed (run st (savePDF part_000 full st Sample.rendered)))
    = [(saveErrorTitle part_000, lit "No space left on device")] /\
  alerts (observed (run st (savePDF App_js dismissed st Sample.rendered)))
    = [(saveErrorTitle App_js, lit "Share sheet dismissed")].
Proof.
  intros st full dismissed; split.
  - destruct (@savePDF_failure_notice part_000 full st Sample.rendered
                {| message := lit "No space left on device" |} (or_introl eq_refl))
      as [Reloc _].
    rewrite (Reloc eq_refl); reflexivity.
  - assert (Path : App_js = part_000 \/ Platform_OS dismissed <> android)
      by (right; discriminate).
    destruct (@savePDF_failure_notice App_js dismissed st Sample.rendered
                {| message := lit "Share sheet dismissed" |} Path) as [_ Share].
    rewrite (Share eq_refl eq_refl eq_refl); reflexivity.
Defined.

(** The callback of the OK button of the success notices. *)
Lemma pressOk_resets (st : AppState) :
  run st (pressAlertButton okResetButton) =
    (Normal tt,
     {| state := {| selectedImages := []; pdfName := []; isGenerating := isGenerating st |};
        trace := [SetState (setSelectedImages []); SetState (setPdfName [])] |}).
Proof. reflexivity. Qed.

(** X7. After a successful save the session starts afresh, but not at the
    same moment in the two copies: in [App.js] off android [savePDF]
    itself clears the Selection and the name as soon as the share
    resolves, and shows nothing; in the second copy [savePDF] leaves every
    state cell as it was and shows one notice whose only button clears
    the Selection and the name when it is pressed.  The flag is never
    touched. *)
Theorem savePDF_fresh_session (file : SourceFile) (env : Services) (st : AppState)
        (rendered : jsstring) :
  file = part_000 \/ Platform_OS env <> android ->
  let newUri := FileSystem_documentDirectory env ++ fileName st in
  relocateResult file env rendered newUri = Resolved tt ->
  Sharing_isAvailableAsync env = Resolved true ->
  Sharing_shareAsync env newUri (shareOptionsOf file) = Resolved tt ->
  let r := run st (savePDF file env st rendered) in
  let fresh := {| selectedImages := []; pdfName := []; isGenerating := isGenerating st |} in
  match file with
  | App_js => finalState r = fresh /\ alerts (observed r) = []
  | part_000 =>
      finalState r = st /\
      alertButtons (observed r) = [[okResetButton]] /\
      finalState (run (finalState r) (pressAlertButton okResetButton)) = fresh
  end.
Proof.
  intros Path newUri Reloc Avail Share r fresh; subst r newUri fresh.
  unfold run at 1 2, invoke, savePDF, try_catch, bind, await, Alert_alert, emit, setState,
    observed, finalState.
  destruct file.
  - destruct Path as [D|N]; [discriminate|].
    replace (PlatformOS_eqb (Platform_OS env) android) with false
      by (destruct (Platform_OS env); try reflexivity; congruence).
    cbv zeta; cbn [relocateResult shareOptionsOf] in *.
    rewrite Reloc, Avail; cbn [state trace app]; rewrite Share.
    split; reflexivity.
  - cbv zeta; cbn [relocateResult shareOptionsOf] in *.
    rewrite Reloc, Avail; cbn [state trace app]; rewrite Share.
    cbn [fst snd state trace]; rewrite pressOk_resets.
    repeat split; reflexivity.
Qed.

Lemma savePDF_fresh_session_witness :
  let st := Sample.session [Sample.imageA; Sample.imageB] "Report" false in
  finalState (run st (savePDF App_js (Sample.device ios true true) st Sample.rendered))
    = Sample.session [] "" false /\
  finalState (run st (savePDF part_000 (Sample.device ios true true) st Sample.rendered)) = st.
Proof.
  intros st; split.
  - assert (Path : App_js = part_000 \/ Platform_OS (Sample.device ios true true) <> android)
      by (right; discriminate).
    apply (@savePDF_fresh_session App_js (Sample.device ios true true) st Sample.rendered
             Path eq_refl eq_refl eq_refl).
  - apply (@savePDF_fresh_session part_000 (Sample.device ios true true) st Sample.rendered
             (or_introl eq_refl) eq_refl eq_refl eq_refl).
Defined.

(** ** Pipeline Runner: every run, whatever the services do *)

Lemma firstRejection_None (env : Services) (sel : list Asset) :
  firstRejection env sel = None -> Forall (readable env) sel.
Proof.
  induction sel as [|img rest IH]; cbn [firstRejection]; [constructor|].
  destruct (FileSystem_readAsStringAsync env (uri img)) as [b|e] eqn:R; [|discriminate].
  destruct (firstRejection env rest) as [[[pre x] e]|]; [discriminate|].
  intros _; constructor; [exists b; exact R | apply IH; reflexivity].
Qed.

Lemma firstRejection_Some (env : Services) (sel pre : list Asset) (x : Asset) (e : JsError) :
  firstRejection env sel = Some (pre, x, e) ->
  exists post,
    sel = pre ++ x :: post /\
    Forall (readable env) pre /\
    FileSystem_readAsStringAsync env (uri x) = Rejected e.
Proof.
  revert pre; induction sel as [|img rest IH]; intros pre; cbn [firstRejection]; [discriminate|].
  destruct (FileSystem_readAsStringAsync env (uri img)) as [b|e'] eqn:R.
  - destruct (firstRejection env rest) as [[[pre' x'] e'']|]; [|discriminate].
    intros E; injection E as <- <- <-.
    destruct (IH pre' eq_refl) as (post & -> & Hpre & Hx).
    exists post; split; [reflexivity|]. split; [|exact Hx].
    constructor; [exists b; exact R | exact Hpre].
  - intros E; injection E as <- <- <-.
    exists rest; split; [reflexivity|]. split; [constructor | exact R].
Qed.

(** Once every read has resolved, the run goes on with the kept contents. *)
Lemma run_after_reads (file : SourceFile) (env : Services) (st : AppState)
      (k : list jsstring -> Async unit) (handler : JsError -> Async unit) (fin : Async unit) :
  Forall (readable env) (selectedImages st) ->
  run st (setState (setIsGenerating true) ;;
          try_finally
            (try_catch (images <- readImages file env 0 (selectedImages st) [] ;; k images)
                       handler)
            fin) =
  run st (fun _ =>
            try_finally
              (try_catch (k (filter truthy (map (contentOf env) (selectedImages st)))) handler)
              fin
              {| state := applyUpdate (setIsGenerating true) st;
                 trace := SetState (setIsGenerating true)
                            :: map readCall (selectedImages st) |}).
Proof.
  intros Hall; unfold run, invoke, bind, try_finally, try_catch, setState.
  cbn [state trace fst snd].
  rewrite (@readImages_resolved file env _ Hall).
  cbn [state trace app]; reflexivity.
Qed.

(** Clearing the flag at the end hides whatever the flag was at the start. *)
Lemma idle_replay (t : list Event) (s s' : AppState) :
  selectedImages s = selectedImages s' ->
  pdfName s = pdfName s' ->
  idle (replay t s) = idle (replay t s').
Proof.
  unfold replay; revert s s'; induction t as [|ev t IH]; intros s s' S P; cbn [fold_left].
  - destruct s, s'; cbn in *; subst; reflexivity.
  - apply IH; destruct ev as [?|? ? ?|[l|n|b]]; cbn; auto.
Qed.

Section GenerateOutcome.

Variable file : SourceFile.
Variable env : Services.
Variable st : AppState.

Hypothesis selection_nonempty : selectedImages st <> [].
Hypothesis name_nonblank : trim (pdfName st) <> [].
Hypothesis all_readable : Forall (readable env) (selectedImages st).

Let kept := filter truthy (map (contentOf env) (selectedImages st)).

Hypothesis some_kept : kept <> [].

(** The Renderer rejects: one notice with its message, and no saving. *)
Lemma generatePDF_render_rejected (e : JsError) :
  Print_printToFileAsync env (htmlOf kept) = Rejected e ->
  run st (generatePDF file env st) =
    (Normal tt,
     {| state := idle st;
        trace := SetState (setIsGenerating true) :: map readCall (selectedImages st) ++
                   [Called (printToFileAsync (htmlOf kept));
                    Alert (errorTitle file) (lit "Failed to generate PDF: " ++ message e) [];
                    SetState (setIsGenerating false)] |}).
Proof.
  intros Print; unfold generatePDF.
  apply length_eqb_0 in selection_nonempty as NE.
  apply truthy_true_iff in name_nonblank as T.
  rewrite NE, T; cbn [negb].
  rewrite (@run_after_reads file env st _ _ _ all_readable); fold kept.
  apply length_eqb_0 in some_kept as L; rewrite L.
  unfold run, invoke, try_finally, try_catch, bind, await, Alert_alert, emit, setState.
  cbv zeta; rewrite Print.
  cbn [state trace fst snd app idle applyUpdate selectedImages pdfName isGenerating].
  rewrite <- !app_assoc; reflexivity.
Qed.

(** The Renderer resolves: what follows is the run of [savePDF] on the
    rendered file, then the [finally]. *)
Lemma generatePDF_rendered (rendered : jsstring) :
  Print_printToFileAsync env (htmlOf kept) = Resolved rendered ->
  let saved := run st (savePDF file env st rendered) in
  let r := run st (generatePDF file env st) in
  fst r = Normal tt /\
  observed r =
    SetState (setIsGenerating true) :: map readCall (selectedImages st) ++
      Called (printToFileAsync (htmlOf kept)) :: observed saved
      ++ [SetState (setIsGenerating false)] /\
  finalState r = idle (finalState saved).
Proof.
  intros Print saved r; subst saved r; unfold generatePDF.
  apply length_eqb_0 in selection_nonempty as NE.
  apply truthy_true_iff in name_nonblank as T.
  rewrite NE, T; cbn [negb].
  rewrite (@run_after_reads file env st _ _ _ all_readable); fold kept.
  apply length_eqb_0 in some_kept as L; rewrite L.
  destruct (uniform_savePDF file env st rendered) as (c & t & U).
  assert (C : forall e, c <> Thrown e).
  { intros e ->.
    apply (@neverThrows_savePDF file env st rendered {| state := st; trace := [] |} e).
    rewrite U; reflexivity. }
  unfold run, invoke, try_finally, try_catch, bind, await, setState, observed, finalState.
  cbv zeta; rewrite Print, !U.
  cbn [state trace fst snd app].
  destruct c as [[]| |e]; [| |destruct (C e eq_refl)];
    cbn [state trace fst snd app];
    (split; [reflexivity|]); (split; [rewrite <- !app_assoc; reflexivity|]).
  all: apply idle_replay; reflexivity.
Qed.

End GenerateOutcome.

(** Every run of [generatePDF] has one of five shapes: rejected at the
    checks, stopped by a read, nothing to process, stopped by the
    Renderer, or handed to [savePDF]. *)
Lemma generatePDF_cases (file : SourceFile) (env : Services) (st : AppState) :
  let sel := selectedImages st in
  let kept := filter truthy (map (contentOf env) sel) in
  let r := run st (generatePDF file env st) in
  (exists title msg,
     (sel = [] \/ trim (pdfName st) = []) /\
     r = (Normal tt, {| state := st; trace := [Alert title msg []] |})) \/
  (sel <> [] /\ trim (pdfName st) <> [] /\
   ((exists pre x post e,
       sel = pre ++ x :: post /\ Forall (readable env) pre /\
       FileSystem_readAsStringAsync env (uri x) = Rejected e /\
       r = (Normal tt,
            {| state := idle st;
               trace := SetState (setIsGenerating true) :: map readCall pre ++
                          [readCall x;
                           Alert (errorTitle file) (readErrorMessage (length pre + 1)) [];
                           SetState (setIsGenerating false);
                           SetState (setIsGenerating false)] |})) \/
    (Forall (readable env) sel /\
     ((kept = [] /\
       r = (Normal tt,
            {| state := idle st;
               trace := SetState (setIsGenerating true) :: map readCall sel ++
                          [Alert (errorTitle file) (lit "No images could be processed.") [];
                           SetState (setIsGenerating false);
                           SetState (setIsGenerating false)] |})) \/
      (kept <> [] /\
       ((exists e,
           r = (Normal tt,
                {| state := idle st;
                   trace := SetState (setIsGenerating true) :: map readCall sel ++
                              [Called (printToFileAsync (htmlOf kept));
                               Alert (errorTitle file)
                                 (lit "Failed to generate PDF: " ++ message e) [];
                               SetState (setIsGenerating false)] |})) \/
        (exists rendered,
           Print_printToFileAsync env (htmlOf kept) = Resolved rendered /\
           fst r = Normal tt /\
           observed r =
             SetState (setIsGenerating true) :: map readCall sel ++
               Called (printToFileAsync (htmlOf kept))
               :: observed (run st (savePDF file env st rendered))
               ++ [SetState (setIsGenerating false)] /\
           finalState r = idle (finalState (run st (savePDF file env st rendered)))))))))).
Proof.
  intros sel kept r.
  assert (Nil : forall (X : Type) (l : list X), l = [] \/ l <> [])
    by (intros X [|x l]; [left; reflexivity | right; discriminate]).
  destruct (Nil _ sel) as [Sel|NE].
  { left. subst r; unfold run, generatePDF; fold sel; rewrite Sel.
    do 2 eexists; split; [left; reflexivity | reflexivity]. }
  destruct (Nil _ (trim (pdfName st))) as [Name|T].
  { left. subst r; unfold run, generatePDF; fold sel.
    apply length_eqb_0 in NE; rewrite NE, Name.
    do 2 eexists; split; [right; reflexivity | reflexivity]. }
  right. split; [exact NE|]. split; [exact T|].
  destruct (firstRejection env sel) as [[[pre x] e]|] eqn:FR.
  - left. destruct (firstRejection_Some _ _ FR) as (post & Split & Hpre & Hx).
    exists pre, x, post, e; split; [exact Split|]. split; [exact Hpre|]. split; [exact Hx|].
    exact (@generatePDF_read_rejected file env st NE T pre x post e Split Hpre Hx).
  - right. pose proof (firstRejection_None _ _ FR) as Hall.
    split; [exact Hall|].
    destruct (Nil _ kept) as [K|K].
    + left; split; [exact K|].
      exact (proj1 (@generatePDF_reads_resolved file env st NE T Hall) K).
    + right. split; [exact K|].
      destruct (Print_printToFileAsync env (htmlOf kept)) as [rendered|e] eqn:P.
      * right; exists rendered; split; [reflexivity|].
        exact (@generatePDF_rendered file env st NE T Hall K rendered P).
      * left; exists e.
        exact (@generatePDF_render_rejected file env st NE T Hall K e P).
Qed.

(** Case analysis on everything [savePDF] consults. *)
Ltac savePDF_paths :=
  unfold run, invoke, savePDF, try_catch, bind, await, Alert_alert, emit, setState,
    observed, finalState, ret;
  cbv zeta;
  repeat match goal with
         | |- context [PlatformOS_eqb ?o android] => destruct o; cbn [PlatformOS_eqb]
         | |- context [match ?x with Resolved _ => _ | Rejected _ => _ end] => destruct x as [[]|?]
         | |- context [match ?x with Resolved _ => _ | Rejected _ => _ end] => destruct x as [?|?]
         | |- context [if granted ?p then _ else _] => destruct (granted p)
         | |- context [if ?b then _ else _] => is_var b; destruct b
         end;
  cbn [fst snd state trace app].

Lemma savePDF_alerts (file : SourceFile) (env : Services) (st : AppState) (rendered : jsstring) :
  let n := length (alerts (observed (run st (savePDF file env st rendered)))) in
  n <= 1 /\ (file = part_000 -> n = 1).
Proof.
  destruct file; savePDF_paths; cbn; (split; [lia | try discriminate; reflexivity]).
Qed.

Lemma savePDF_leaves_state (file : SourceFile) (env : Services) (st : AppState)
      (rendered : jsstring) :
  file = part_000 \/ Platform_OS env = android ->
  finalState (run st (savePDF file env st rendered)) = st.
Proof.
  intros Path; destruct file.
  - destruct Path as [D|A]; [discriminate|].
    unfold savePDF; rewrite A; cbn [PlatformOS_eqb]; savePDF_paths; reflexivity.
  - savePDF_paths; reflexivity.
Qed.

Lemma savePDF_relocations (file : SourceFile) (env : Services) (st : AppState)
      (rendered : jsstring) :
  Forall (fun ft => ft = (rendered, FileSystem_documentDirectory env ++ fileName st))
         (relocations (observed (run st (savePDF file env st rendered)))).
Proof.
  destruct file; savePDF_paths; cbn; repeat constructor.
Qed.

(** X8. When every read has resolved with at least one non-empty content
    and the Renderer rejects, [generatePDF] shows exactly one notice,
    made of the fixed text followed by the error's message; [savePDF] is
    not entered (the only service calls are the reads and the one print
    call); the Selection and the name are unchanged, the flag is cleared
    and the promise is fulfilled. *)
Theorem generatePDF_render_failure (file : SourceFile) (env : Services) (st : AppState)
        (e : JsError) :
  selectedImages st <> [] ->
  trim (pdfName st) <> [] ->
  Forall (readable env) (selectedImages st) ->
  let kept := filter truthy (map (contentOf env) (selectedImages st)) in
  kept <> [] ->
  Print_printToFileAsync env (htmlOf kept) = Rejected e ->
  let r := run st (generatePDF file env st) in
  fst r = Normal tt /\
  alerts (observed r) = [(errorTitle file, lit "Failed to generate PDF: " ++ message e)] /\
  calls (observed r) =
    map (fun x => readAsStringAsync (uri x)) (selectedImages st)
      ++ [printToFileAsync (htmlOf kept)] /\
  finalState r = idle st.
Proof.
  intros NE T Hall kept K Print r; subst r.
  rewrite (@generatePDF_render_rejected file env st NE T Hall K e Print).
  unfold observed, finalState; cbn [fst snd state trace].
  repeat split.
  - change (alerts (SetState (setIsGenerating true) :: ?l)) with (alerts l).
    rewrite alerts_app, alerts_reads; reflexivity.
  - change (calls (SetState (setIsGenerating true) :: ?l)) with (calls l).
    rewrite calls_app, calls_reads; reflexivity.
Qed.

Lemma generatePDF_render_failure_witness :
  let st := Sample.session [Sample.imageA] "Report" false in
  let env := faulty {| permissionFails := false; pickerFails := false; printerFails := true;
                       relocationFails := false; shareFails := false |}
                    (Sample.device ios true true) in
  alerts (observed (run st (generatePDF App_js env st)))
    = [(lit "Error", lit "Failed to generate PDF: Printing failed")].
Proof.
  intros st env.
  assert (NE : selectedImages st <> []) by discriminate.
  assert (T : trim (pdfName st) <> []) by discriminate.
  assert (Hall : Forall (readable env) (selectedImages st)).
  { unfold st, Sample.session; cbn [selectedImages].
    constructor; [eexists; reflexivity | constructor]. }
  assert (K : filter truthy (map (contentOf env) (selectedImages st)) <> []) by discriminate.
  destruct (@generatePDF_render_failure App_js env st {| message := lit "Printing failed" |}
              NE T Hall K eq_refl) as (_ & A & _).
  exact A.
Defined.

(** X9. What [generatePDF] reads and renders, for every state and whatever
    the services do.  When a check fails nothing is read.  Otherwise the
    images are read in Selection order, one call each: all of them when
    every read resolves, and when a read rejects exactly those up to and
    including the first one that rejects, none after it.  The Renderer is
    called exactly when both checks pass, every read resolves and some
    content is non-empty, and then once, on the markup of the non-empty
    contents; in every other case it is not called. *)
Theorem generatePDF_pipeline_order (file : SourceFile) (env : Services) (st : AppState) :
  let sel := selectedImages st in
  let kept := filter truthy (map (contentOf env) sel) in
  let r := run st (generatePDF file env st) in
  let ready := sel <> [] /\ trim (pdfName st) <> [] in
  (~ ready -> readCalls (observed r) = []) /\
  (ready -> Forall (readable env) sel -> readCalls (observed r) = map uri sel) /\
  (ready ->
   forall pre x post e,
     sel = pre ++ x :: post ->
     Forall (readable env) pre ->
     FileSystem_readAsStringAsync env (uri x) = Rejected e ->
     readCalls (observed r) = map uri pre ++ [uri x]) /\
  (ready /\ Forall (readable env) sel /\ kept <> [] ->
   renderCalls (observed r) = [htmlOf kept]) /\
  (~ (ready /\ Forall (readable env) sel /\ kept <> []) ->
   renderCalls (observed r) = []).
Proof.
  cbv zeta.
  assert (Reads : forall l tl,
             readCalls (SetState (setIsGenerating true) :: map readCall l ++ tl)
             = map uri l ++ readCalls tl).
  { intros l tl.
    change (readCalls (SetState (setIsGenerating true) :: ?t)) with (readCalls t).
    rewrite readCalls_app, readCalls_reads; reflexivity. }
  assert (Renders : forall l tl,
             renderCalls (SetState (setIsGenerating true) :: map readCall l ++ tl)
             = renderCalls tl).
  { intros l tl.
    change (renderCalls (SetState (setIsGenerating true) :: ?t)) with (renderCalls t).
    rewrite renderCalls_app, renderCalls_reads; reflexivity. }
  assert (Saved : forall u,
             readCalls (observed (run st (savePDF file env st u))) = [] /\
             renderCalls (observed (run st (savePDF file env st u))) = []).
  { intros u.
    destruct (@savePDF_offPipeline file env st u {| state := st; trace := [] |})
      as (t & Ht & Rt & Pt).
    assert (E : observed (run st (savePDF file env st u)) = t).
    { unfold observed, run, invoke.
      destruct (savePDF file env st u {| state := st; trace := [] |}) as [[[]| |e'] w'];
        exact Ht. }
    rewrite E; auto. }
  destruct (generatePDF_cases file env st)
    as [(title & msg & Fail & R)
       |(NE & T & [(pre & x & post & e & Split & Hpre & Hx & R)
                  |(Hall & [(K & R)|(K & [(e & R)|(u & P & _ & O & _)])])])].
  - rewrite R; unfold observed; cbn [snd trace].
    split; [reflexivity|]. split; [|split; [|split]].
    + intros [N1 N2]; destruct Fail; contradiction.
    + intros [N1 N2]; destruct Fail; contradiction.
    + intros [[N1 N2] _]; destruct Fail; contradiction.
    + reflexivity.
  - assert (NotAll : ~ Forall (readable env) (selectedImages st)).
    { intros All; rewrite Split in All; apply Forall_app in All as [_ All].
      inversion All as [|? ? [b Hb] _]; congruence. }
    split; [intros N; exfalso; apply N; split; assumption|].
    split; [intros _ All; contradiction|].
    split; [|split].
    + intros _ pre' x' post' e' Split' Hpre' Hx'.
      rewrite (@generatePDF_read_rejected file env st NE T pre' x' post' e' Split' Hpre' Hx').
      unfold observed; cbn [snd trace]; rewrite Reads; reflexivity.
    + intros (_ & All & _); contradiction.
    + intros _; rewrite R; unfold observed; cbn [snd trace]; rewrite Renders; reflexivity.
  - assert (Rejects : forall pre' x' post' e',
               selectedImages st = pre' ++ x' :: post' ->
               FileSystem_readAsStringAsync env (uri x') = Rejected e' -> False).
    { intros pre' x' post' e' Split' Hx'; rewrite Split' in Hall.
      apply Forall_app in Hall as [_ All]; inversion All as [|? ? [b Hb] _]; congruence. }
    rewrite R; unfold observed; cbn [snd trace]; rewrite Reads, Renders.
    split; [intros N; exfalso; apply N; split; assumption|].
    split; [intros _ _; apply app_nil_r|].
    split; [intros _ pre' x' post' e' Split' _ Hx'; destruct (Rejects _ _ _ _ Split' Hx')|].
    split; [intros (_ & _ & K'); contradiction | reflexivity].
  - assert (Rejects : forall pre' x' post' e',
               selectedImages st = pre' ++ x' :: post' ->
               FileSystem_readAsStringAsync env (uri x') = Rejected e' -> False).
    { intros pre' x' post' e' Split' Hx'; rewrite Split' in Hall.
      apply Forall_app in Hall as [_ All]; inversion All as [|? ? [b Hb] _]; congruence. }
    rewrite R; unfold observed; cbn [snd trace]; rewrite Reads, Renders.
    split; [intros N; exfalso; apply N; split; assumption|].
    split; [intros _ _; apply app_nil_r|].
    split; [intros _ pre' x' post' e' Split' _ Hx'; destruct (Rejects _ _ _ _ Split' Hx')|].
    split; [reflexivity|].
    intros N; exfalso; apply N; repeat split; assumption.
  - assert (Rejects : forall pre' x' post' e',
               selectedImages st = pre' ++ x' :: post' ->
               FileSystem_readAsStringAsync env (uri x') = Rejected e' -> False).
    { intros pre' x' post' e' Split' Hx'; rewrite Split' in Hall.
      apply Forall_app in Hall as [_ All]; inversion All as [|? ? [b Hb] _]; congruence. }
    destruct (Saved u) as [Rs Ps].
    rewrite O, Reads, Renders.
    change (readCalls (Called (printToFileAsync ?h) :: ?l)) with (readCalls l).
    change (renderCalls (Called (printToFileAsync ?h) :: ?l)) with (h :: renderCalls l).
    rewrite readCalls_app, renderCalls_app, Rs, Ps.
    split; [intros N; exfalso; apply N; split; assumption|].
    split; [intros _ _; apply app_nil_r|].
    split; [intros _ pre' x' post' e' Split' _ Hx'; destruct (Rejects _ _ _ _ Split' Hx')|].
    split; [reflexivity|].
    intros N; exfalso; apply N; repeat split; assumption.
Qed.

(** Selection [A; C; B] where [C] cannot be read: [A] and [C] are read,
    [B] is not, and nothing is rendered. *)
Lemma generatePDF_pipeline_order_witness :
  let st := Sample.session [Sample.imageA; Sample.imageC; Sample.imageB] "Report" false in
  let r := run st (generatePDF App_js (Sample.device ios true true) st) in
  readCalls (observed r) = [uri Sample.imageA; uri Sample.imageC] /\
  renderCalls (observed r) = [].
Proof.
  intros st r.
  destruct (generatePDF_pipeline_order App_js (Sample.device ios true true) st)
    as (_ & _ & Stop & _ & None_).
  assert (Ready : selectedImages st <> [] /\ trim (pdfName st) <> [])
    by (split; discriminate).
  split.
  - apply (Stop Ready [Sample.imageA] Sample.imageC [Sample.imageB]
             {| message := lit "File is not readable" |} eq_refl).
    + constructor; [eexists; reflexivity | constructor].
    + reflexivity.
  - apply None_; intros (_ & All & _).
    inversion All as [|? ? _ All']; inversion All' as [|? ? [b Hb] _]; discriminate Hb.
Defined.

(** X10. Every run of the second copy's [generatePDF], whatever the state
    and whatever the services do, shows exactly one notice; every run of
    the one of [App.js] shows at most one. *)
Theorem generatePDF_one_notice (file : SourceFile) (env : Services) (st : AppState) :
  let n := length (alerts (observed (run st (generatePDF file env st)))) in
  n <= 1 /\ (file = part_000 -> n = 1).
Proof.
  intros n; subst n.
  destruct (generatePDF_cases file env st)
    as [(title & msg & _ & R)
       |(NE & T & [(pre & x & post & e & Split & Hpre & Hx & R)
                  |(Hall & [(K & R)|(K & [(e & R)|(u & P & _ & O & _)])])])].
  - rewrite R; cbn; auto.
  - rewrite R; unfold observed; cbn [snd trace].
    change (alerts (SetState (setIsGenerating true) :: ?l)) with (alerts l).
    rewrite alerts_app, alerts_reads; cbn; auto.
  - rewrite R; unfold observed; cbn [snd trace].
    change (alerts (SetState (setIsGenerating true) :: ?l)) with (alerts l).
    rewrite alerts_app, alerts_reads; cbn; auto.
  - rewrite R; unfold observed; cbn [snd trace].
    change (alerts (SetState (setIsGenerating true) :: ?l)) with (alerts l).
    rewrite alerts_app, alerts_reads; cbn; auto.
  - rewrite O.
    change (alerts (SetState (setIsGenerating true) :: ?l)) with (alerts l).
    rewrite alerts_app, alerts_reads.
    change (alerts (Called (printToFileAsync ?h) :: ?l)) with (alerts l).
    rewrite alerts_app; cbn [alerts flat_map app]; rewrite app_nil_r.
    apply savePDF_alerts.
Qed.

Lemma generatePDF_one_notice_witness :
  let st := Sample.session [Sample.imageA; Sample.imageC] "Report" false in
  length (alerts (observed (run st (generatePDF part_000 (Sample.device ios true true) st)))) = 1.
Proof.
  intros st.
  apply (generatePDF_one_notice part_000 (Sample.device ios true true) st); reflexivity.
Defined.

(** X11. Whatever the services do, the only lasting effect of
    [generatePDF] on the state cells is to clear the flag, in the second
    copy on every platform and in [App.js] on android: the Selection and
    the name are what they were (they are cleared later, by the button of
    the success notice). *)
Theorem generatePDF_keeps_session (file : SourceFile) (env : Services) (st : AppState) :
  file = part_000 \/ Platform_OS env = android ->
  let r := run st (generatePDF file env st) in
  (finalState r = st \/ finalState r = idle st) /\
  selectedImages (finalState r) = selectedImages st /\
  pdfName (finalState r) = pdfName st.
Proof.
  intros Path; cbv zeta.
  assert (H : finalState (run st (generatePDF file env st)) = st \/
              finalState (run st (generatePDF file env st)) = idle st).
  { destruct (generatePDF_cases file env st)
      as [(title & msg & _ & R)
         |(NE & T & [(pre & x & post & e & Split & Hpre & Hx & R)
                    |(Hall & [(K & R)|(K & [(e & R)|(u & P & _ & _ & F)])])])];
      try (rewrite R; auto; fail).
    right; rewrite F, (@savePDF_leaves_state file env st u Path); reflexivity. }
  split; [exact H|]. destruct H as [-> | ->]; split; reflexivity.
Qed.

Lemma generatePDF_keeps_session_witness :
  let st := Sample.session [Sample.imageA; Sample.imageB] "Report" false in
  selectedImages (finalState (run st (generatePDF part_000 (Sample.device ios true true) st)))
    = [Sample.imageA; Sample.imageB].
Proof.
  intros st.
  apply (@generatePDF_keeps_session part_000 (Sample.device ios true true) st
           (or_introl eq_refl)).
Defined.

Lemma relocations_app (a b : list Event) :
  relocations (a ++ b) = relocations a ++ relocations b.
Proof. apply flat_map_app. Qed.

Lemma relocations_reads (l : list Asset) : relocations (map readCall l) = [].
Proof. induction l; simpl; auto. Qed.

(** X12. Whatever the services do, [generatePDF] relocates the rendered
    file at most to one place: the document directory followed by the
    trimmed name and [.pdf]; and the trimmed name is then never empty, so
    no run ever writes a file called just [.pdf]. *)
Theorem generatePDF_relocation_target (file : SourceFile) (env : Services) (st : AppState) :
  Forall (fun ft =>
            snd ft = FileSystem_documentDirectory env ++ trim (pdfName st) ++ lit ".pdf" /\
            trim (pdfName st) <> [])
         (relocations (observed (run st (generatePDF file env st)))).
Proof.
  destruct (generatePDF_cases file env st)
    as [(title & msg & _ & R)
       |(NE & T & [(pre & x & post & e & Split & Hpre & Hx & R)
                  |(Hall & [(K & R)|(K & [(e & R)|(u & P & _ & O & _)])])])].
  - rewrite R; constructor.
  - rewrite R; unfold observed; cbn [snd trace].
    change (relocations (SetState (setIsGenerating true) :: ?l)) with (relocations l).
    rewrite relocations_app, relocations_reads; constructor.
  - rewrite R; unfold observed; cbn [snd trace].
    change (relocations (SetState (setIsGenerating true) :: ?l)) with (relocations l).
    rewrite relocations_app, relocations_reads; constructor.
  - rewrite R; unfold observed; cbn [snd trace].
    change (relocations (SetState (setIsGenerating true) :: ?l)) with (relocations l).
    rewrite relocations_app, relocations_reads; constructor.
  - rewrite O.
    change (relocations (SetState (setIsGenerating true) :: ?l)) with (relocations l).
    rewrite relocations_app, relocations_reads.
    change (relocations (Called (printToFileAsync ?h) :: ?l)) with (relocations l).
    rewrite relocations_app; cbn [relocations flat_map app]; rewrite app_nil_r.
    eapply Forall_impl; [|apply savePDF_relocations].
    intros ft ->; split; [reflexivity | exact T].
Qed.

(** ** Selection Manager: clearing, and what picking can never do *)

(** X13. [clearAll] by itself changes nothing: it shows one confirmation
    with the buttons Cancel and Clear, in that order.  Pressing Cancel
    leaves every state cell as it was; pressing Clear empties the
    Selection and leaves the name and the flag as they were. *)
Theorem clearAll_needs_confirmation (st : AppState) :
  let r := run st clearAll in
  fst r = Normal tt /\
  finalState r = st /\
  exists cancel clear,
    alertButtons (observed r) = [[cancel; clear]] /\
    text cancel = lit "Cancel" /\
    text clear = lit "Clear" /\
    finalState (run st (pressAlertButton cancel)) = st /\
    finalState (run st (pressAlertButton clear)) =
      {| selectedImages := []; pdfName := pdfName st; isGenerating := isGenerating st |}.
Proof.
  cbv zeta; split; [reflexivity|]. split; [reflexivity|].
  do 2 eexists; split; [reflexivity|].
  repeat split; destruct st; reflexivity.
Qed.

(** X14. Whatever the services do, [pickImages] never removes or reorders
    what is selected and never touches the name or the flag: the
    Selection after it is the Selection before it followed by what was
    added, which is nothing unless the picker was opened. *)
Theorem pickImages_only_appends (file : SourceFile) (env : Services) (st : AppState) :
  let r := run st (pickImages file env st) in
  pdfName (finalState r) = pdfName st /\
  isGenerating (finalState r) = isGenerating st /\
  exists added,
    selectedImages (finalState r) = selectedImages st ++ added /\
    (~ In launchImageLibraryAsync (calls (observed r)) -> added = []).
Proof.
  cbv zeta.
  unfold run, invoke, pickImages, try_catch, bind, requestPermissions, launchPicker, bind,
    await, Alert_alert, emit, ret, return_, setState, observed, finalState.
  destruct file;
    destruct (ImagePicker_requestMediaLibraryPermissionsAsync env) as [image|e1];
    try destruct (MediaLibrary_requestPermissionsAsync env) as [media|e2];
    try destruct (status image); try destruct (status media);
    cbn [state trace app negb fst snd];
    try destruct (ImagePicker_launchImageLibraryAsync env) as [result|e3];
    try destruct (canceled result); try destruct (assets result) as [picked|];
    cbn [state trace app fst snd applyUpdate selectedImages pdfName isGenerating];
    (split; [reflexivity|]); (split; [reflexivity|]);
    first [ exists []; split; [symmetry; apply app_nil_r | reflexivity]
          | exists picked; split; [reflexivity|];
            intros No; exfalso; apply No; cbn; tauto ].
Qed.

(** ** The buttons *)

(** X15. The Generate button is enabled exactly when the Selection is not
    empty, the name does not trim to nothing and no generation is in
    progress; so a press on it, whatever the services do, either does
    nothing or passes both checks of [generatePDF] and starts by setting
    the flag: the two notices of those checks are never shown through the
    button.  The Select Images button does nothing while a generation is
    in progress. *)
Theorem button_guards (file : SourceFile) (env : Services) (st : AppState) :
  let r := run st (pressGenerate file env st) in
  (generateDisabled st = false <->
   selectedImages st <> [] /\ trim (pdfName st) <> [] /\ isGenerating st = false) /\
  (generateDisabled st = true -> r = (Normal tt, {| state := st; trace := [] |})) /\
  (generateDisabled st = false ->
   exists rest, observed r = SetState (setIsGenerating true) :: rest) /\
  (isGenerating st = true ->
   run st (pressSelectImages file env st) = (Normal tt, {| state := st; trace := [] |})).
Proof.
  cbv zeta.
  assert (Enabled : generateDisabled st = false <->
                    selectedImages st <> [] /\ trim (pdfName st) <> [] /\
                    isGenerating st = false).
  { unfold generateDisabled; rewrite !orb_false_iff, negb_false_iff, length_eqb_0,
      truthy_true_iff; tauto. }
  split; [exact Enabled|]. split; [|split].
  - intros D; unfold run, pressGenerate; rewrite D; reflexivity.
  - intros D; unfold pressGenerate; rewrite D.
    apply Enabled in D as (NE & T & _).
    unfold generatePDF.
    apply length_eqb_0 in NE; apply truthy_true_iff in T; rewrite NE, T; cbn [negb].
    match goal with
    | |- context [try_finally ?body _] =>
        destruct (@bracketed_run (setIsGenerating true) (setIsGenerating false) body st)
          as (_ & (middle & M) & _)
    end.
    + async_auto; auto using readImages_extends, savePDF_extends.
    + async_auto.
    + eexists; exact M.
  - intros G; unfold run, pressSelectImages; rewrite G; reflexivity.
Qed.

Lemma button_guards_witness :
  let busy := Sample.session [Sample.imageA] "Report" true in
  let ready := Sample.session [Sample.imageA] "Report" false in
  run busy (pressGenerate App_js (Sample.device ios true true) busy)
    = (Normal tt, {| state := busy; trace := [] |}) /\
  exists rest,
    observed (run ready (pressGenerate App_js (Sample.device ios true true) ready))
      = SetState (setIsGenerating true) :: rest.
Proof.
  intros busy ready; split.
  - apply (button_guards App_js (Sample.device ios true true) busy); reflexivity.
  - apply (button_guards App_js (Sample.device ios true true) ready); reflexivity.
Defined.

(** ** The file name and the markup *)

Lemma trimStart_white_prefix (a s : jsstring) :
  forallb isWhiteSpace a = true -> trimStart (a ++ s) = trimStart s.
Proof.
  induction a as [|c a IH]; [reflexivity|].
  cbn [forallb app trimStart]; intros H; apply andb_true_iff in H as [W F].
  rewrite W; exact (IH F).
Qed.

Lemma trimStart_app (s b : jsstring) :
  trimStart (s ++ b) =
    if forallb isWhiteSpace s then trimStart b else trimStart s ++ b.
Proof.
  induction s as [|c s IH]; [reflexivity|].
  cbn [forallb app trimStart]; destruct (isWhiteSpace c); [exact IH | reflexivity].
Qed.

Lemma trimEnd_white_suffix (s b : jsstring) :
  forallb isWhiteSpace b = true -> trimEnd (s ++ b) = trimEnd s.
Proof.
  intros H; unfold trimEnd; rewrite rev_app_distr, trimStart_white_prefix; [reflexivity|].
  apply forallb_forall; intros c Hc; rewrite forallb_forall in H.
  apply H, in_rev; exact Hc.
Qed.

Lemma trim_surrounding (a s b : jsstring) :
  forallb isWhiteSpace a = true ->
  forallb isWhiteSpace b = true ->
  trim (a ++ s ++ b) = trim s.
Proof.
  intros Ha Hb; unfold trim.
  rewrite (@trimStart_white_prefix a _ Ha), trimStart_app.
  destruct (forallb isWhiteSpace s) eqn:Ws.
  - rewrite (@trimStart_all_white b Hb), (@trimStart_all_white s Ws); reflexivity.
  - apply trimEnd_white_suffix, Hb.
Qed.

(** X16. White space around the name is immaterial: two sessions whose
    names differ only by white space added before and after (spaces, tabs,
    line breaks, no-break spaces and the like) are given the same file
    name by [savePDF] and the same answer by the name check of
    [generatePDF] and of the Generate button. *)
Theorem fileName_ignores_surrounding_space (st st' : AppState) (before after : jsstring) :
  forallb isWhiteSpace before = true ->
  forallb isWhiteSpace after = true ->
  pdfName st' = before ++ pdfName st ++ after ->
  fileName st' = fileName st /\
  truthy (trim (pdfName st')) = truthy (trim (pdfName st)) /\
  (selectedImages st' = selectedImages st -> isGenerating st' = isGenerating st ->
   generateDisabled st' = generateDisabled st).
Proof.
  intros Hb Ha E; unfold fileName, generateDisabled.
  rewrite E, (@trim_surrounding before (pdfName st) after Hb Ha).
  repeat split. intros -> ->; reflexivity.
Qed.

Lemma fileName_ignores_surrounding_space_witness :
  fileName (Sample.session [] "  Report " false) = fileName (Sample.session [] "Report" false).
Proof.
  apply (@fileName_ignores_surrounding_space
           (Sample.session [] "Report" false) (Sample.session [] "  Report " false)
           (lit "  ") (lit " ") eq_refl eq_refl eq_refl).
Defined.

(** Base64 contents closed by a double quote can be read back. *)
Lemma base64_delimited (a b r1 r2 : jsstring) :
  forallb isBase64 a = true ->
  forallb isBase64 b = true ->
  a ++ 34%N :: r1 = b ++ 34%N :: r2 ->
  a = b /\ r1 = r2.
Proof.
  revert b; induction a as [|x a IH]; intros [|y b] Ha Hb E; cbn [app forallb] in *.
  - injection E as ->; auto.
  - injection E as <- _; apply andb_true_iff in Hb as [Hy _]; discriminate Hy.
  - injection E as -> _; apply andb_true_iff in Ha as [Hx _]; discriminate Hx.
  - injection E as -> E.
    apply andb_true_iff in Ha as [_ Ha]; apply andb_true_iff in Hb as [_ Hb].
    destruct (IH b Ha Hb E) as [-> ->]; auto.
Qed.

Lemma imgTag_shape (x rest : jsstring) :
  imgTag x ++ rest =
    (lit "<img src=" ++ dquote ++ lit "data:image/jpeg;base64,") ++
    x ++ 34%N :: (lit " style=" ++ dquote ++ lit "width:100%;display:block;" ++ dquote
                    ++ lit "/>") ++ rest.
Proof. unfold imgTag, dquote; rewrite <- !app_assoc; reflexivity. Qed.

Lemma imagesHtml_injective (a : list jsstring) :
  forall b,
    Forall (fun x => forallb isBase64 x = true) a ->
    Forall (fun x => forallb isBase64 x = true) b ->
    join (map imgTag a) ++ htmlTail = join (map imgTag b) ++ htmlTail ->
    a = b.
Proof.
  unfold join; induction a as [|x a IH]; intros [|y b] Ha Hb E; cbn [map concat] in E.
  - reflexivity.
  - exfalso; rewrite <- app_assoc, imgTag_shape in E; discriminate E.
  - exfalso; rewrite <- app_assoc, imgTag_shape in E; discriminate E.
  - rewrite <- !app_assoc, !imgTag_shape in E.
    apply app_inv_head in E.
    inversion Ha as [|? ? Hx Ha']; inversion Hb as [|? ? Hy Hb']; subst.
    destruct (@base64_delimited _ _ _ _ Hx Hy E) as [-> E'].
    apply app_inv_head in E'.
    f_equal; apply IH; assumption.
Qed.

(** X17. The markup handed to the Renderer determines the contents it was
    built from, and their order: two lists of base64 contents with the
    same markup are the same list.  So images selected in a different
    order, or a different number of images, never give the same document
    markup unless the contents read are the same, position by position. *)
Theorem htmlOf_injective (a b : list jsstring) :
  Forall (fun x => forallb isBase64 x = true) a ->
  Forall (fun x => forallb isBase64 x = true) b ->
  htmlOf a = htmlOf b ->
  a = b.
Proof.
  intros Ha Hb E; unfold htmlOf in E.
  apply app_inv_head in E.
  exact (@imagesHtml_injective a b Ha Hb E).
Qed.

Lemma htmlOf_injective_witness :
  [lit "QUJD"; lit "REVG"] = [lit "QUJD"; lit "REVG"].
Proof.
  assert (B : Forall (fun x => forallb isBase64 x = true) [lit "QUJD"; lit "REVG"])
    by (repeat constructor).
  exact (@htmlOf_injective _ _ B B eq_refl).
Defined.

(** Two images in the other order give another markup. *)
Lemma htmlOf_order_matters :
  htmlOf [lit "QUJD"; lit "REVG"] <> htmlOf [lit "REVG"; lit "QUJD"].
Proof.
  intros E.
  assert (B : Forall (fun x => forallb isBase64 x = true) [lit "QUJD"; lit "REVG"])
    by (repeat constructor).
  assert (B' : Forall (fun x => forallb isBase64 x = true) [lit "REVG"; lit "QUJD"])
    by (repeat constructor).
  pose proof (@htmlOf_injective _ _ B B' E) as Same; discriminate Same.
Qed.

(** ** At most one generation in flight *)

Lemma replay_flag (t : list Event) (s : AppState) :
  isGenerating (replay t s) = flagAfter (isGenerating s) t.
Proof.
  unfold replay; revert s; induction t as [|e t IH]; intros s; [reflexivity|].
  cbn [fold_left]; rewrite IH; destruct e as [c|? ? ?|[l|n|b]]; reflexivity.
Qed.

(** Cutting a handler's events at its next [await]: if every call is made
    under the flag, the flag is set when the handler suspends, and what is
    left again makes every call under the flag and ends on the same flag. *)
Lemma toNextAwait_flag (t : list Event) :
  forall g,
    match toNextAwait t with
    | (now, Some rest) =>
        flagAfter g t = flagAfter (flagAfter g now) rest /\
        (Forall (fun cg => snd cg = true) (callsUnder g t) ->
         flagAfter g now = true /\
         Forall (fun cg => snd cg = true) (callsUnder true rest))
    | (now, None) => now = t
    end.
Proof.
  induction t as [|e t IH]; intros g; cbn [toNextAwait]; [reflexivity|].
  destruct e as [c|title msg bs|[l|n|b]].
  - cbn [flagAfter callsUnder]; split; [reflexivity|].
    intros H; inversion H as [|? ? Hc Hr]; cbn [snd] in Hc; subst g; auto.
  - specialize (IH g); destruct (toNextAwait t) as [now [rest|]];
      [exact IH | congruence].
  - specialize (IH g); destruct (toNextAwait t) as [now [rest|]];
      [exact IH | congruence].
  - specialize (IH g); destruct (toNextAwait t) as [now [rest|]];
      [exact IH | congruence].
  - specialize (IH b); destruct (toNextAwait t) as [now [rest|]];
      [exact IH | congruence].
Qed.

(** The button is enabled only with the flag clear, and the invocation it
    then starts makes every call under the flag and ends with it clear. *)
Lemma press_flag_profile (file : SourceFile) (env : Services) (st : AppState) :
  generateDisabled st = false ->
  let t := observed (run st (pressGenerate file env st)) in
  isGenerating st = false /\
  Forall (fun cg => snd cg = true) (callsUnder (isGenerating st) t) /\
  flagAfter (isGenerating st) t = false.
Proof.
  intros D; cbv zeta; unfold pressGenerate; rewrite D.
  unfold generateDisabled in D; rewrite !orb_false_iff, negb_false_iff in D.
  destruct D as [[NE T] G].
  split; [exact G|]. split; [apply generatePDF_calls_under_flag|].
  unfold generatePDF; rewrite NE, T; cbn [negb].
  match goal with
  | |- context [try_finally ?body _] =>
      destruct (@bracketed_run (setIsGenerating true) (setIsGenerating false) body st)
        as (_ & (middle & M) & _)
  end.
  - async_auto; auto using readImages_extends, savePDF_extends.
  - async_auto.
  - rewrite M.
    change (SetState (setIsGenerating true) :: middle ++ [SetState (setIsGenerating false)])
      with ((SetState (setIsGenerating true) :: middle) ++ [SetState (setIsGenerating false)]).
    rewrite flagAfter_app; reflexivity.
Qed.

(** A press on the disabled button leaves the session as it is. *)
Lemma press_disabled (file : SourceFile) (env : Services) (s : Session) :
  generateDisabled (cells s) = true -> happen file env PressGenerate s = s.
Proof.
  intros D; unfold happen, pressGenerate; rewrite D.
  unfold proceed, run, invoke, ret, observed; cbn [snd trace toNextAwait replay fold_left].
  rewrite app_nil_r; destruct s; reflexivity.
Qed.

(** Every happening keeps the session guarded. *)
Lemma happen_guarded (file : SourceFile) (env : Services) (h : Happening) (s : Session) :
  guarded s -> guarded (happen file env h s).
Proof.
  intros G; destruct h as [|k|images name].
  - destruct (generateDisabled (cells s)) eqn:D.
    + rewrite (press_disabled file env s D); exact G.
    + destruct (press_flag_profile file env (cells s) D) as (Clear & Calls & Ends).
      unfold guarded in G.
      destruct (inFlight s) as [|t0 [|t1 others]] eqn:F;
        [| destruct G as [Set_ _]; congruence | contradiction].
      unfold happen, proceed; rewrite F.
      pose proof (toNextAwait_flag
                    (observed (run (cells s) (pressGenerate file env (cells s))))
                    (isGenerating (cells s))) as Cut.
      destruct (toNextAwait (observed (run (cells s) (pressGenerate file env (cells s)))))
        as [now [rest|]]; unfold guarded; cbn [inFlight cells]; rewrite replay_flag.
      * destruct Cut as [Split Held]; destruct (Held Calls) as [Now Rest].
        split; [exact Now|]. split; [exact Rest|].
        rewrite <- Now, <- Split; exact Ends.
      * rewrite Cut; exact Ends.
  - unfold happen, guarded in *.
    destruct (inFlight s) as [|t0 [|t1 others]] eqn:F; [| |contradiction].
    + destruct k; cbn [nth_error]; rewrite ?F; exact G.
    + destruct k as [|k]; cbn [nth_error];
        [|destruct k; cbn [nth_error]; rewrite F; exact G].
      destruct G as (Set_ & Calls & Ends).
      unfold proceed; cbn [firstn skipn app].
      pose proof (toNextAwait_flag t0 true) as Cut.
      destruct (toNextAwait t0) as [now [rest|]]; cbn [inFlight cells];
        rewrite replay_flag, Set_.
      * destruct Cut as [Split Held]; destruct (Held Calls) as [Now Rest].
        split; [exact Now|]. split; [exact Rest|].
        rewrite <- Now, <- Split; exact Ends.
      * rewrite Cut; exact Ends.
  - exact G.
Qed.

Lemma happenings_guarded (file : SourceFile) (env : Services) (hs : list Happening) :
  guarded (happenings file env hs).
Proof.
  unfold happenings.
  assert (H : forall s, guarded s -> guarded (fold_left (fun s h => happen file env h s) hs s)).
  { induction hs as [|h hs IH]; intros s G; [exact G|].
    cbn [fold_left]; apply IH, happen_guarded, G. }
  apply H; reflexivity.
Qed.

(** C1. Generate is called from one place only, the [onPress] of the
    Generate button, which is disabled while [isGenerating] holds.  In
    every session in which the flag is set, a press on the button changes
    nothing: nothing is observed (so no Byte Reader call and no Renderer
    call), no state cell changes and no invocation is started.  And
    whatever happens from the start of the application (presses, service
    calls settling in any order, other handlers setting the Selection and
    the name, whatever the services answer), at most one [generatePDF]
    invocation is in flight, and the flag is set exactly while one is. *)
Theorem C1_generate_guarded (file : SourceFile) (env : Services) :
  (forall s : Session,
     isGenerating (cells s) = true -> happen file env PressGenerate s = s) /\
  (forall hs : list Happening,
     let s := happenings file env hs in
     length (inFlight s) <= 1 /\
     (isGenerating (cells s) = true <-> inFlight s <> [])).
Proof.
  split.
  - intros s G; apply press_disabled.
    unfold generateDisabled; rewrite G; apply orb_true_r.
  - intros hs s; subst s.
    pose proof (happenings_guarded file env hs) as G; unfold guarded in G.
    destruct (inFlight (happenings file env hs)) as [|t0 [|t1 others]]; [| |contradiction].
    + split; [cbn; lia|]. rewrite G; split; [discriminate | congruence].
    + destruct G as (Set_ & _); split; [cbn; lia|].
      rewrite Set_; split; [discriminate | reflexivity].
Qed.

(** Two images and a name are entered and Generate is pressed twice: the
    second press is ignored, and one invocation is in flight, suspended
    at its first read.  Once its six service calls have settled, nothing is
    in flight, the flag is clear, and what was observed is the run of
    [generatePDF] from the state at the press. *)
Lemma C1_generate_guarded_witness :
  let env := Sample.device ios true true in
  let st := Sample.session [Sample.imageA; Sample.imageB] "Report" false in
  let enter := Edits [Sample.imageA; Sample.imageB] (lit "Report") in
  let once := happenings App_js env [enter; PressGenerate] in
  let done := happenings App_js env
                [enter; PressGenerate; PressGenerate; Settles 0; Settles 0; PressGenerate;
                 Settles 0; Settles 0; Settles 0; Settles 0] in
  happen App_js env PressGenerate once = once /\
  length (inFlight once) = 1 /\
  seen once = [SetState (setIsGenerating true); Called (readAsStringAsync (uri Sample.imageA))] /\
  inFlight done = [] /\
  isGenerating (cells done) = false /\
  seen done = observed (run st (generatePDF App_js env st)).
Proof.
  intros env st enter once done.
  split; [|repeat split; reflexivity].
  apply (proj1 (C1_generate_guarded App_js env) once); reflexivity.
Defined.

(** The other handlers never call [setIsGenerating], which is what
    [Edits] relies on. *)
Lemma other_handlers_leave_flag (file : SourceFile) (env : Services) (st : AppState)
      (index : Z) :
  adds offFlag (pickImages file env st) /\
  adds offFlag (removeImage st index) /\
  adds offFlag clearAll /\
  adds offFlag (pressAlertButton okResetButton) /\
  adds offFlag (callSetters [setSelectedImages []]).
Proof.
  unfold pickImages, requestPermissions, launchPicker, removeImage, clearAll,
    pressAlertButton, okResetButton, Alert_alert; cbn [onPress callSetters].
  repeat split;
    repeat first
      [ async_step
      | apply offFlag_nil
      | apply offFlag_app
      | match goal with
        | |- offFlag [_] => intros g; split; [reflexivity | repeat constructor]
        end ].
Qed.
